(** * gotty: session admission, health gate and the WebSocket handshake

    A shallow embedding of the server package of gotty: the session guard
    ([beginManagedSession], [finish]), the health flag ([markUnhealthy],
    [wrapUnhealthy]), environment resolution ([resolveEnvFromRequest]) and
    the WebSocket handler ([generateHandleWS], [processWSConn],
    [shouldDecommission]).

    Conventions.
    - A Go [string] is a [string] of bytes; a Go [error] is an
      [option error] with [None] for [nil]; [url.Values] and [http.Header]
      are finite maps from keys to value lists.
    - The guard's fields are only read and written under [sessionMu], so
      each call of [beginManagedSession] and [finish] is one atomic step on
      the server record; an interleaving of calls is a list of such steps.
    - Calls on collaborators outside the package (the upgrader, the
      connection, the backend factory, the bridge) are recorded as [Event]s
      and answer what a per-connection [Script] says.
    - Log output ([log.Printf], [closeReason]) is not part of the model. *)

From Stdlib Require Import ZArith String Ascii List Bool Lia.
From stdpp Require Import gmap strings list.
Import ListNotations.
Open Scope string_scope.
Open Scope Z_scope.
Open Scope list_scope.

(** ** Go library functions the package calls *)

Module GoStrings.

(** [strings.Cut(s, sep)] for a one-byte separator: the text before the
    first [sep], the text after it, and whether [sep] was found. *)
Fixpoint Cut (sep : ascii) (s : string) : string * string * bool :=
  match s with
  | EmptyString => (EmptyString, EmptyString, false)
  | String c rest =>
      if Ascii.eqb c sep then (EmptyString, rest, true)
      else let '(before, after, found) := Cut sep rest in
           (String c before, after, found)
  end.

(** [strings.Count(s, sep)] for a one-byte separator. *)
Fixpoint Count (sep : ascii) (s : string) : nat :=
  match s with
  | EmptyString => O
  | String c rest => (if Ascii.eqb c sep then 1 else 0)%nat + Count sep rest
  end.

Definition Contains (sep : ascii) (s : string) : bool :=
  negb (Nat.eqb (Count sep s) 0).

Definition HasPrefix (s pre : string) : bool := String.prefix pre s.

(** [strings.HasSuffix(s, suf)] for a one-byte suffix. *)
Fixpoint HasSuffix (s : string) (suf : ascii) : bool :=
  match s with
  | EmptyString => false
  | String c EmptyString => Ascii.eqb c suf
  | String _ rest => HasSuffix rest suf
  end.

(** [s[:len(s)-1]]. *)
Fixpoint dropLast (s : string) : string :=
  match s with
  | EmptyString => EmptyString
  | String _ EmptyString => EmptyString
  | String c rest => String c (dropLast rest)
  end.

(** The pieces of [s] between occurrences of [sep], in order: what a loop
    of [strings.Cut(s, sep)] visits until nothing is left. *)
Fixpoint Split (sep : ascii) (s : string) : list string :=
  match s with
  | EmptyString => [EmptyString]
  | String c rest =>
      if Ascii.eqb c sep then EmptyString :: Split sep rest
      else match Split sep rest with
           | piece :: pieces => String c piece :: pieces
           | [] => [String c EmptyString]
           end
  end.

Definition byte_in (lo hi c : ascii) : bool :=
  (N.leb (N_of_ascii lo) (N_of_ascii c) && N.leb (N_of_ascii c) (N_of_ascii hi))%bool.

(** The six bytes of Go's [asciiSpace] table: tab, newline, vertical tab,
    form feed, carriage return and space. *)
Definition isAsciiSpace (c : ascii) : bool :=
  (byte_in "009" "013" c || Ascii.eqb c " ")%bool.

Fixpoint trimLeft (s : string) : string :=
  match s with
  | EmptyString => EmptyString
  | String c rest => if isAsciiSpace c then trimLeft rest else s
  end.

Fixpoint trimRight (s : string) : string :=
  match s with
  | EmptyString => EmptyString
  | String c rest =>
      let rest' := trimRight rest in
      if (isAsciiSpace c && String.eqb rest' EmptyString)%bool
      then EmptyString else String c rest'
  end.

(** [strings.TrimSpace] on a string of ASCII bytes. *)
Definition TrimSpaceASCII (s : string) : string := trimRight (trimLeft s).

Definition lowerByte (c : ascii) : ascii :=
  if byte_in "A" "Z" c then ascii_of_N (N_of_ascii c + 32) else c.

(** [strings.ToLower] on a string of ASCII bytes. *)
Fixpoint ToLowerASCII (s : string) : string :=
  match s with
  | EmptyString => EmptyString
  | String c rest => String (lowerByte c) (ToLowerASCII rest)
  end.

End GoStrings.

(** Go's [error] values, as far as the package tells them apart: the four
    sentinels [shouldDecommission] compares with, an error with no [Cause]
    method, and an error with one (what [pkgerrors.Wrapf] builds). *)
#[warnings="-register-all"]
Inductive error : Type :=
| context_Canceled
| context_DeadlineExceeded
| webtty_ErrSlaveClosed
| webtty_ErrMasterClosed
| errorString (msg : string)
| withCause (msg : string) (cause : option error).

Module pkgerrors.

(** [pkgerrors.New(message)]: an error without a [Cause] method. *)
Definition New (message : string) : error := errorString message.

(** [pkgerrors.Wrapf(err, format)] of a non-nil [err]: a stack wrapper
    around a message wrapper around [err]; both have a [Cause] method. *)
Definition Wrapf (err : error) (format : string) : option error :=
  Some (withCause format (Some (withCause format (Some err)))).

(** [pkgerrors.Cause(err)]: follow [Cause()] while the error has one. *)
Fixpoint CauseOf (err : error) : option error :=
  match err with
  | withCause _ None => None
  | withCause _ (Some cause) => CauseOf cause
  | _ => Some err
  end.

Definition Cause (err : option error) : option error :=
  match err with
  | None => None
  | Some e => CauseOf e
  end.

End pkgerrors.

Module url.

(** [url.Values], [map[string][]string]. *)
Abbreviation Values := (gmap string (list string)).

(** The fields of [url.URL] that [Parse] fills without looking into the
    authority ([User] and [Host] are left out). *)
Record URL := mkURL {
  Scheme : string;
  Opaque : string;
  Path : string;
  ForceQuery : bool;
  RawQuery : string;
  Fragment : string;
}.

Definition ishex (c : ascii) : bool :=
  (GoStrings.byte_in "0" "9" c || GoStrings.byte_in "a" "f" c
   || GoStrings.byte_in "A" "F" c)%bool.

Definition unhex (c : ascii) : N :=
  if GoStrings.byte_in "0" "9" c then N_of_ascii c - N_of_ascii "0"
  else if GoStrings.byte_in "a" "f" c then N_of_ascii c - N_of_ascii "a" + 10
  else if GoStrings.byte_in "A" "F" c then N_of_ascii c - N_of_ascii "A" + 10
  else 0.

(** [unescape(s, mode)] for the modes without host rules: a percent sign
    must be followed by two hex digits; in a query component a plus sign
    decodes to a space. [None] is the [EscapeError]. *)
Fixpoint unescape (queryComponent : bool) (s : string) : option string :=
  match s with
  | EmptyString => Some EmptyString
  | String "%" (String a (String b rest)) =>
      if (ishex a && ishex b)%bool
      then String (ascii_of_N (16 * unhex a + unhex b)) <$> unescape queryComponent rest
      else None
  | String "%" _ => None
  | String "+" rest =>
      String (if queryComponent then " " else "+")%char <$> unescape queryComponent rest
  | String c rest => String c <$> unescape queryComponent rest
  end.

(** One round of the loop of [parseQuery]: [key] is the text up to the
    next ampersand. A piece with a semicolon, an empty piece and a piece
    with a bad escape add nothing. *)
Definition parseQueryPiece (m : Values) (key : string) : Values :=
  if GoStrings.Contains ";" key then m
  else if String.eqb key EmptyString then m
  else
    let '(key, value, _) := GoStrings.Cut "=" key in
    match unescape true key with
    | None => m
    | Some key =>
        match unescape true value with
        | None => m
        | Some value => <[key := default [] (m !! key) ++ [value]]> m
        end
    end.

(** The map [url.ParseQuery(query)] returns; [URL.Query] drops its error. *)
Definition ParseQuery (query : string) : Values :=
  fold_left parseQueryPiece (GoStrings.Split "&" query) ∅.

Definition Query (u : URL) : Values := ParseQuery (RawQuery u).

(** [Values.Get(key)]: the first value of [key], or the empty string. *)
Definition Get (v : Values) (key : string) : string :=
  match v !! key with
  | Some (first :: _) => first
  | _ => EmptyString
  end.

(** [getScheme(rawURL)]: [inl] is the error of a leading colon. [seen]
    holds the bytes read so far, last first. *)
Fixpoint getSchemeFrom (seen : list ascii) (rawURL s : string)
  : string + (string * string) :=
  match s with
  | EmptyString => inr (EmptyString, rawURL)
  | String c rest =>
      if (GoStrings.byte_in "a" "z" c || GoStrings.byte_in "A" "Z" c)%bool
      then getSchemeFrom (c :: seen) rawURL rest
      else if (GoStrings.byte_in "0" "9" c || Ascii.eqb c "+" || Ascii.eqb c "-"
               || Ascii.eqb c ".")%bool
      then match seen with
           | [] => inr (EmptyString, rawURL)
           | _ => getSchemeFrom (c :: seen) rawURL rest
           end
      else if Ascii.eqb c ":"
      then match seen with
           | [] => inl "missing protocol scheme"
           | _ => inr (string_of_list_ascii (rev seen), rest)
           end
      else inr (EmptyString, rawURL)
  end.

Definition getScheme (rawURL : string) : string + (string * string) :=
  getSchemeFrom [] rawURL rawURL.

Fixpoint stringContainsCTLByte (s : string) : bool :=
  match s with
  | EmptyString => false
  | String c rest =>
      (N.ltb (N_of_ascii c) 32 || N.eqb (N_of_ascii c) 127
       || stringContainsCTLByte rest)%bool
  end.

Section Parse.

(** [parseAuthority], reduced to whether it accepts the authority;
    [Some] is the message of its error. *)
Variable parseAuthority : string -> option string.

(** [parse(rawURL, false)]; [inl] is the message of its error. *)
Definition parse (rawURL : string) : string + URL :=
  if stringContainsCTLByte rawURL
  then inl "net/url: invalid control character in URL"
  else if String.eqb rawURL "*"
  then inr (mkURL "" "" "*" false "" "")
  else
    match getScheme rawURL with
    | inl msg => inl msg
    | inr (scheme, rest) =>
        let scheme := GoStrings.ToLowerASCII scheme in
        let '(rest, forceQuery, rawQuery) :=
          if (GoStrings.HasSuffix rest "?"
              && Nat.eqb (GoStrings.Count "?" rest) 1)%bool
          then (GoStrings.dropLast rest, true, EmptyString)
          else let '(before, after, _) := GoStrings.Cut "?" rest in
               (before, false, after) in
        let rootless := negb (GoStrings.HasPrefix rest "/") in
        if (rootless && negb (String.eqb scheme ""))%bool
        then inr (mkURL scheme rest "" forceQuery rawQuery "")
        else if (rootless
                 && GoStrings.Contains ":" (fst (fst (GoStrings.Cut "/" rest))))%bool
        then inl "first path segment in URL cannot contain colon"
        else
          let hasAuthority :=
            ((negb (String.eqb scheme "") || negb (GoStrings.HasPrefix rest "///"))
             && GoStrings.HasPrefix rest "//")%bool in
          let '(authority, rest) :=
            if hasAuthority
            then let after := String.substring 2 (String.length rest - 2) rest in
                 let '(host, path, found) := GoStrings.Cut "/" after in
                 (host, if found then String "/" path else EmptyString)
            else (EmptyString, rest) in
          match (if hasAuthority then parseAuthority authority else None) with
          | Some msg => inl msg
          | None =>
              match unescape false rest with
              | None => inl "invalid URL escape"
              | Some path => inr (mkURL scheme "" path forceQuery rawQuery "")
              end
          end
    end.

(** [url.Parse(rawURL)]: cut the fragment off, [parse] the rest, set
    the fragment. A failure is a [*url.Error], which has no [Cause]
    method. *)
Definition Parse (rawURL : string) : error + URL :=
  let '(u, frag, _) := GoStrings.Cut "#" rawURL in
  match parse u with
  | inl msg => inl (errorString (String.append "parse: " msg))
  | inr parsed =>
      if String.eqb frag EmptyString then inr parsed
      else match unescape false frag with
           | None => inl (errorString "parse: invalid URL escape")
           | Some f =>
               inr (mkURL (Scheme parsed) (Opaque parsed) (Path parsed)
                      (ForceQuery parsed) (RawQuery parsed) f)
           end
  end.

End Parse.

End url.


(** Library functions taken as given: [strings.TrimSpace] and
    [strings.ToLower] (Unicode aware in Go) and [url.Parse]. The package
    is modelled over any implementation of them. *)
Class External := {
  strings_TrimSpace : string -> string;
  strings_ToLower : string -> string;
  url_Parse : string -> error + url.URL;
}.

(** The implementation used to run the model on concrete requests: the
    ASCII versions of the string functions and [url.Parse] with an
    authority check that accepts. *)
Definition asciiExternal : External := {|
  strings_TrimSpace := GoStrings.TrimSpaceASCII;
  strings_ToLower := GoStrings.ToLowerASCII;
  url_Parse := url.Parse (fun _ => None);
|}.

(** ** The server *)

(** Modelled from the spec: the [Server] struct, whose declaration is not
    among the sources, with the three fields of section 3 that the guard
    and the health gate use. [unhealthy] is the [int32] word that
    [atomic.StoreInt32] and [atomic.LoadInt32] access in part_001. *)
Record Server := mkServer {
  decommissioned : bool;
  activeSession : bool;
  unhealthy : Z;
}.

(** Modelled from the spec: the configuration ([server.options], declared
    outside the sources), with the fields the WebSocket handler reads
    before the bridge starts. *)
Record Options := mkOptions {
  Once : bool;
  MaxConnection : Z;
  PassHeaders : bool;
  Credential : string;
  PermitArguments : bool;
}.

(** ** Health flag (part_001) *)

Definition markUnhealthy (server : Server) : Server :=
  mkServer (decommissioned server) (activeSession server) 1.

Definition isUnhealthy (server : Server) : bool :=
  Z.eqb (unhealthy server) 1.

(** ** Session guard (part_000) *)

Definition envQueryParam : string := "ENV".
Definition envCookieName : string := "gotty.env".
Definition envValueDev : string := "dev".
Definition envValueProd : string := "prod".

Definition sessionError := string.

Definition errSessionActive : sessionError := "Another session is active".
Definition errServerDestroyed : sessionError := "Server has been destroyed".

(** A ticket. Its [server] pointer is the one server of the model. *)
Record sessionGuard := mkGuard {
  env : string;
}.

Definition beginManagedSession (env : string) (server : Server)
  : (sessionGuard + sessionError) * Server :=
  if decommissioned server then (inr errServerDestroyed, server)
  else if String.eqb env envValueDev then (inl (mkGuard env), server)
  else if activeSession server then (inr errSessionActive, server)
  else (inl (mkGuard env),
        mkServer (decommissioned server) true (unhealthy server)).

Definition finish (guard : sessionGuard) (decommission : bool) (server : Server)
  : bool * Server :=
  if String.eqb (env guard) envValueDev then (false, server)
  else
    let server := mkServer (decommissioned server) false (unhealthy server) in
    if (decommission && negb (decommissioned server))%bool
    then (true, markUnhealthy (mkServer true (activeSession server) (unhealthy server)))
    else (false, server).

Definition shouldServeHTTP (_ : string) (server : Server) : bool :=
  negb (decommissioned server).

(** ** Requests, responses and collaborators *)

Record Cookie := mkCookie {
  Name : string;
  Value : string;
  Path : string;
}.

(** What the handlers read of an [http.Request]: the method, the raw query
    of its URL, its headers, and the cookies it carries in header order. *)
Record Request := mkRequest {
  Method : string;
  RawQuery : string;
  Header : url.Values;
  Cookies : list Cookie;
}.

(** [r.URL.Query()]. *)
Definition requestQuery (r : Request) : url.Values := url.ParseQuery (RawQuery r).

(** [r.Cookie(name)]: the first cookie of that name, [None] for
    [ErrNoCookie]. *)
Definition requestCookie (r : Request) (name : string) : option Cookie :=
  List.find (fun c => String.eqb (Name c) name) (Cookies r).

(** The calls a handler makes on the response writer, the connection and
    the backend, in order. *)
Inductive Event : Type :=
| SetCookie (cookie : Cookie)
| HttpError (message : string) (status : Z)
| Upgrade (upgraded : bool)
| WriteClose (code : Z) (reason : string)
| ReadMessage
| FactoryNew (params : url.Values) (headers : option url.Values)
| TtyRun
| SlaveClose
| ConnClose.

Definition StatusInternalServerError : Z := 500.
Definition StatusServiceUnavailable : Z := 503.
Definition StatusMethodNotAllowed : Z := 405.

(** [websocket.TextMessage]. *)
Definition TextMessage : Z := 1.

(** Modelled from the spec: the [InitMessage] struct, declared outside the
    sources: "{AuthToken: string, Arguments: string}". *)
Record InitMessage := mkInit {
  Arguments : string;
  AuthToken : string;
}.

(** What the collaborators answer during one connection: the upgrade, the
    first [conn.ReadMessage()] (message type and payload), [json.Unmarshal]
    of that payload, [factory.New], the title template, [webtty.New] and
    [tty.Run]. [None] is a nil error. *)
Record Script := mkScript {
  upgradeResult : option error;
  readResult : error + (Z * string);
  unmarshalResult : error + InitMessage;
  factoryResult : option error;
  titleResult : option error;
  webttyResult : option error;
  runResult : option error;
}.

(** What a handler can change: the server record, the [once] word of
    [generateHandleWS], the connection counter, and whether [cancel] was
    called. *)
Record World := mkWorld {
  server : Server;
  once : Z;
  connections : Z;
  cancelled : bool;
}.

Definition Handler := Request -> World -> World * list Event.

(** [http.Error(w, message, status)]. *)
Definition http_Error (message : string) (status : Z) : list Event :=
  [HttpError message status].

(** ** Health gate (part_001) *)

Definition wrapUnhealthy (handler : Handler) : Handler :=
  fun r w =>
    if isUnhealthy (server w)
    then (w, http_Error "session closed" StatusInternalServerError)
    else handler r w.

(** ** Connection counter and the once word *)

(** Modelled from the spec: the connection counter, whose file is not among
    the sources. [add(n)] "atomically increases the live count by [n],
    returns the new total"; [done()] "atomically decreases the live count
    by 1, returns the new total". Its idle timer is left out. *)
Definition counter_add (n : Z) (w : World) : Z * World :=
  (connections w + n,
   mkWorld (server w) (once w) (connections w + n) (cancelled w)).

(** Modelled from the spec: [done()] of the connection counter. *)
Definition counter_done (w : World) : Z * World :=
  (connections w - 1,
   mkWorld (server w) (once w) (connections w - 1) (cancelled w)).

(** [atomic.CompareAndSwapInt64(addr, old, new)] on the word's value:
    whether it swapped, and the value afterwards. *)
Definition CompareAndSwapInt64 (word old new : Z) : bool * Z :=
  if Z.eqb word old then (true, new) else (false, word).

Definition withServer (s : Server) (w : World) : World :=
  mkWorld s (once w) (connections w) (cancelled w).

Definition withOnce (o : Z) (w : World) : World :=
  mkWorld (server w) o (connections w) (cancelled w).

(** [cancel()]. *)
Definition cancel (w : World) : World :=
  mkWorld (server w) (once w) (connections w) true.

(** ** Close-reason classifier (handlers.go) *)

Definition shouldDecommission (err : option error) : bool :=
  match err with
  | None => true
  | Some _ =>
      match pkgerrors.Cause err with
      | Some context_Canceled | Some context_DeadlineExceeded
      | Some webtty_ErrMasterClosed | Some webtty_ErrSlaveClosed => true
      | _ => false
      end
  end.

(** The loop [for key, values := range httpQueryParams { params[key] = values }]. *)
Definition mergeParams (httpQueryParams params : url.Values) : url.Values :=
  map_fold (fun key values params => <[key := values]> params) params httpQueryParams.

Section Handlers.

Context {ext : External}.
Variable options : Options.

(** *** Environment resolution (part_000) *)

Definition resolveEnvFromRequest (r : Request) : string * list Event :=
  let envValue := strings_TrimSpace (url.Get (requestQuery r) envQueryParam) in
  let '(envValue, events) :=
    if negb (String.eqb envValue "")
    then (envValue, [SetCookie (mkCookie envCookieName envValue "/")])
    else match requestCookie r envCookieName with
         | Some cookie => (Value cookie, [])
         | None => (envValue, [])
         end in
  if String.eqb envValue "" then (envValueProd, events)
  else (strings_ToLower envValue, events).

(** *** The handshake (handlers.go) *)

Definition processWSConn (sc : Script) (headers : option url.Values)
    (httpQueryParams : url.Values) : option error * list Event :=
  match readResult sc with
  | inl err =>
      (pkgerrors.Wrapf err "failed to authenticate websocket connection",
       [ReadMessage])
  | inr (typ, initLine) =>
      if negb (Z.eqb typ TextMessage)
      then (Some (pkgerrors.New
              "failed to authenticate websocket connection: invalid message type"),
            [ReadMessage])
      else
        match unmarshalResult sc with
        | inl err =>
            (pkgerrors.Wrapf err "failed to authenticate websocket connection",
             [ReadMessage])
        | inr init =>
            if negb (String.eqb (AuthToken init) (Credential options))
            then (Some (pkgerrors.New "failed to authenticate websocket connection"),
                  [ReadMessage])
            else
              let queryPath :=
                if (PermitArguments options
                    && negb (String.eqb (Arguments init) ""))%bool
                then Arguments init else "?" in
              match url_Parse queryPath with
              | inl err =>
                  (pkgerrors.Wrapf err "failed to parse arguments", [ReadMessage])
              | inr query =>
                  let params := mergeParams httpQueryParams (url.Query query) in
                  let created := [ReadMessage; FactoryNew params headers] in
                  match factoryResult sc with
                  | Some err =>
                      (pkgerrors.Wrapf err "failed to create backend", created)
                  | None =>
                      match titleResult sc with
                      | Some err =>
                          (pkgerrors.Wrapf err "failed to fill window title template",
                           created ++ [SlaveClose])
                      | None =>
                          match webttyResult sc with
                          | Some err =>
                              (pkgerrors.Wrapf err "failed to create webtty",
                               created ++ [SlaveClose])
                          | None =>
                              (runResult sc, created ++ [TtyRun; SlaveClose])
                          end
                      end
                  end
              end
        end
  end.

(** The body of the handler from the method check to its return, for an
    admitted session of environment [env]: the values of
    [counterIncremented] and [sessionShouldDecommission] at the return,
    the world and the calls made. [conn.Close()] is deferred from the
    upgrade on, so it is the last call of every path after it. *)
Definition session (env : string) (sc : Script) (r : Request) (w : World)
  : bool * bool * World * list Event :=
  if negb (String.eqb (Method r) "GET")
  then (false, false, w, http_Error "Method not allowed" StatusMethodNotAllowed)
  else
    let '(num, w) := counter_add 1 w in
    match upgradeResult sc with
    | Some err => (true, false, w, [Upgrade false])
    | None =>
        if (negb (Z.eqb (MaxConnection options) 0)
            && Z.gtb num (MaxConnection options))%bool
        then (true, false, w,
              [Upgrade true; WriteClose 4000 "Another session is active"; ConnClose])
        else
          let headers := if PassHeaders options then Some (Header r) else None in
          let queryParams := requestQuery r in
          let '(err, events) := processWSConn sc headers queryParams in
          let sessionShouldDecommission :=
            if negb (String.eqb env envValueDev)
            then shouldDecommission err else false in
          (true, sessionShouldDecommission, w,
           [Upgrade true] ++ events ++ [ConnClose])
    end.

(** The two deferred functions of the handler, in the order they run:
    the counter's, then the guard's. *)
Definition releaseCounter (counterIncremented : bool) (w : World) : World :=
  if counterIncremented
  then let '(_, w) := counter_done w in
       if Once options then cancel w else w
  else w.

Definition releaseGuard (guard : sessionGuard) (sessionShouldDecommission : bool)
    (w : World) : World :=
  let '(_, s) := finish guard sessionShouldDecommission (server w) in
  withServer s w.

(** The handler [generateHandleWS] returns. *)
Definition handleWS (sc : Script) : Handler :=
  fun r w =>
    let '(env, cookies) := resolveEnvFromRequest r in
    let '(success, word) :=
      if Once options then CompareAndSwapInt64 (once w) 0 1
      else (true, once w) in
    let w := withOnce word w in
    if negb success
    then (w, cookies ++ http_Error "Server is shutting down" StatusServiceUnavailable)
    else
      match beginManagedSession env (server w) with
      | (inr err, s) =>
          let message :=
            if String.eqb err errServerDestroyed
            then "Server is unavailable" else err in
          (withServer s w, cookies ++ http_Error message StatusServiceUnavailable)
      | (inl guard, s) =>
          let w := withServer s w in
          let '(counterIncremented, sessionShouldDecommission, w, events) :=
            session env sc r w in
          let w := releaseCounter counterIncremented w in
          let w := releaseGuard guard sessionShouldDecommission w in
          (w, cookies ++ events)
      end.

End Handlers.

(** ** Interleavings *)

(** The guard under concurrent handlers: the server record and the tickets
    handed out and not yet finished. A handler calls [finish] on its
    ticket once (the deferred call), so finishing takes the ticket out. *)
Record Guarded := mkGuarded {
  guarded : Server;
  live : list sessionGuard;
}.

Inductive Call : Type :=
| CallBegin (env : string)
| CallFinish (ticket : nat) (decommission : bool).

Definition call (c : Call) (g : Guarded) : Guarded :=
  match c with
  | CallBegin env =>
      match beginManagedSession env (guarded g) with
      | (inl guard, s) => mkGuarded s (live g ++ [guard])
      | (inr _, s) => mkGuarded s (live g)
      end
  | CallFinish ticket decommission =>
      match live g !! ticket with
      | Some guard =>
          mkGuarded (snd (finish guard decommission (guarded g)))
                    (delete ticket (live g))
      | None => g
      end
  end.

Definition calls (cs : list Call) (g : Guarded) : Guarded :=
  fold_left (fun g c => call c g) cs g.

Definition isProd (guard : sessionGuard) : bool :=
  negb (String.eqb (env guard) envValueDev).

(** The number of live tickets whose environment is not dev. *)
Definition liveProd (g : Guarded) : nat :=
  length (List.filter isProd (live g)).

(** What the guard keeps true under any interleaving: [activeSession]
    counts the live prod tickets, and a decommissioned server has none. *)
Definition guardInvariant (g : Guarded) : Prop :=
  liveProd g = (if activeSession (guarded g) then 1 else 0)%nat
  /\ (decommissioned (guarded g) = true -> activeSession (guarded g) = false).

(** A server whose fields have Go's zero values. *)
Definition zeroServer : Server := mkServer false false 0.

Definition zeroWorld : World := mkWorld zeroServer 0 0 false.

(** Everything in the package that writes the server record, as steps on
    the world: the two guard operations (for any ticket), the health flag,
    and a whole run of the WebSocket handler. *)
Inductive Op : Type :=
| OpBegin (env : string)
| OpFinish (guard : sessionGuard) (decommission : bool)
| OpMarkUnhealthy
| OpHandleWS (sc : Script) (r : Request).

Definition exec {ext : External} (options : Options) (op : Op) (w : World) : World :=
  match op with
  | OpBegin env => withServer (snd (beginManagedSession env (server w))) w
  | OpFinish guard decommission =>
      withServer (snd (finish guard decommission (server w))) w
  | OpMarkUnhealthy => withServer (markUnhealthy (server w)) w
  | OpHandleWS sc r => fst (handleWS options sc r w)
  end.

Definition execs {ext : External} (options : Options) (ops : list Op) (w : World) : World :=
  fold_left (fun w op => exec options op w) ops w.

(** The invariant of the data model: a decommissioned server is unhealthy. *)
Definition healthInvariant (s : Server) : Prop :=
  decommissioned s = true -> isUnhealthy s = true.

(** Requests served one after the other by one handler; the responses in
    order. *)
Fixpoint serve {ext : External} (options : Options) (requests : list (Script * Request))
    (w : World) : World * list (list Event) :=
  match requests with
  | [] => (w, [])
  | (sc, r) :: rest =>
      let '(w, response) := handleWS options sc r w in
      let '(w, responses) := serve options rest w in
      (w, response :: responses)
  end.

(** The two context errors [shouldDecommission] lists: what [ctx.Err()]
    returns once a context is cancelled, by a call or by its deadline. *)
Definition contextCancellation (e : error) : Prop :=
  e = context_Canceled \/ e = context_DeadlineExceeded.

(** The world in which an admitted request starts its session body: the
    once word claimed (in once mode) and the server as admission left it. *)
Definition admittedWorld (options : Options) (s : Server) (w : World) : World :=
  withServer s (withOnce (if Once options then 1 else once w) w).

(** Whether the backend factory was called. *)
Definition invokesFactory (events : list Event) : bool :=
  existsb (fun e => match e with FactoryNew _ _ => true | _ => false end) events.

(** The headers the handler hands to [processWSConn]. *)
Definition passedHeaders (options : Options) (r : Request) : option url.Values :=
  if PassHeaders options then Some (Header r) else None.

(** *** Sample data *)

(** A GET request with the given raw query, no header and no cookie. *)
Definition getRequest (rawQuery : string) : Request :=
  mkRequest "GET" rawQuery ∅ [].

(** A connection on which everything succeeds: the upgrade, a text frame
    that decodes to [init], the backend, the title, the bridge; the bridge
    ends with [run]. *)
Definition goodScript (init : InitMessage) (run : option error) : Script :=
  mkScript None (inr (TextMessage, "init")) (inr init) None None None run.

(** No once mode, no connection limit, no header passing, an empty
    credential, arguments permitted. *)
Definition plainOptions : Options := mkOptions false 0 false "" true.

(** ** Middleware (part_000) *)

(** What a wrapped handler does to the response: header fields it sets
    itself, and the calls recorded as [Event]s. *)
Inductive Reply : Type :=
| HeaderSet (key value : string)
| Served (e : Event).

Definition PageHandler := Request -> World -> World * list Reply.

(** A [Handler] as the innermost of a chain of wrappers. *)
Definition serveHandler (handler : Handler) : PageHandler :=
  fun r w => let '(w, events) := handler r w in (w, Served <$> events).

(** [r.Header.Get(key)] for a key in canonical form: the first value, or
    the empty string. *)
Definition headerGet (h : url.Values) (key : string) : string := url.Get h key.

(** [strings.SplitN(s, " ", 2)]: [s] alone when it has no space, else the
    text before the first space and all the text after it. *)
Definition SplitN2 (s : string) : list string :=
  let '(before, after, found) := GoStrings.Cut " " s in
  if found then [before; after] else [s].

(** The text [Basic realm="GoTTY"]. *)
Definition basicChallenge : string :=
  String.append "Basic realm=" (String "034" (String.append "GoTTY" (String "034" ""))).

Definition StatusUnauthorized : Z := 401.

Definition wrapHeaders (handler : PageHandler) : PageHandler :=
  fun r w =>
    let '(w, replies) := handler r w in
    (w, HeaderSet "Server" "GoTTY" :: replies).

Section BasicAuth.

Context {ext : External}.

(** [base64.StdEncoding.DecodeString], taken as given. *)
Variable base64_DecodeString : string -> error + string.

Definition wrapBasicAuth (handler : PageHandler) (credential : string) : PageHandler :=
  fun r w =>
    let token := SplitN2 (headerGet (Header r) "Authorization") in
    match token with
    | [scheme; encoded] =>
        if negb (String.eqb (strings_ToLower scheme) "basic")
        then (w, [HeaderSet "WWW-Authenticate" basicChallenge;
                  Served (HttpError "Bad Request" StatusUnauthorized)])
        else
          match base64_DecodeString encoded with
          | inl err =>
              (w, [Served (HttpError "Internal Server Error" StatusInternalServerError)])
          | inr payload =>
              if negb (String.eqb credential payload)
              then (w, [HeaderSet "WWW-Authenticate" basicChallenge;
                        Served (HttpError "authorization failed" StatusUnauthorized)])
              else handler r w
          end
    | _ =>
        (w, [HeaderSet "WWW-Authenticate" basicChallenge;
             Served (HttpError "Bad Request" StatusUnauthorized)])
    end.

End BasicAuth.

(** The three answers of [wrapBasicAuth] to a request it turns away. *)
Definition challengeReply (message : string) : list Reply :=
  [HeaderSet "WWW-Authenticate" basicChallenge;
   Served (HttpError message StatusUnauthorized)].

Definition decodeFailureReply : list Reply :=
  [Served (HttpError "Internal Server Error" StatusInternalServerError)].

Module base64.

(** The value of a byte of the standard alphabet. *)
Definition decodeChar (c : ascii) : option N :=
  if GoStrings.byte_in "A" "Z" c then Some (N_of_ascii c - 65)%N
  else if GoStrings.byte_in "a" "z" c then Some (N_of_ascii c - 97 + 26)%N
  else if GoStrings.byte_in "0" "9" c then Some (N_of_ascii c - 48 + 52)%N
  else if Ascii.eqb c "+" then Some 62%N
  else if Ascii.eqb c "/" then Some 63%N
  else None.

(** The bytes of the quanta of a padded input, line breaks already taken
    out: four digits give three bytes; the last quantum may end in one or
    two padding bytes. [None] is the [CorruptInputError]. *)
Fixpoint decodeQuanta (cs : list ascii) : option (list ascii) :=
  match cs with
  | [] => Some []
  | [a; b; "="%char; "="%char] =>
      match decodeChar a, decodeChar b with
      | Some x, Some y => Some [ascii_of_N ((4 * x + y / 16) mod 256)]
      | _, _ => None
      end
  | [a; b; c; "="%char] =>
      match decodeChar a, decodeChar b, decodeChar c with
      | Some x, Some y, Some z =>
          Some [ascii_of_N ((4 * x + y / 16) mod 256);
                ascii_of_N ((16 * y + z / 4) mod 256)]
      | _, _, _ => None
      end
  | a :: b :: c :: d :: rest =>
      match decodeChar a, decodeChar b, decodeChar c, decodeChar d,
            decodeQuanta rest with
      | Some x, Some y, Some z, Some u, Some bytes =>
          Some (ascii_of_N ((4 * x + y / 16) mod 256)
                :: ascii_of_N ((16 * y + z / 4) mod 256)
                :: ascii_of_N ((64 * z + u) mod 256) :: bytes)
      | _, _, _, _, _ => None
      end
  | _ => None
  end.

Definition isLineBreak (c : ascii) : bool :=
  (Ascii.eqb c "010" || Ascii.eqb c "013")%bool.

(** [base64.StdEncoding.DecodeString(s)]: line breaks are skipped. *)
Definition DecodeString (s : string) : error + string :=
  match decodeQuanta (List.filter (fun c => negb (isLineBreak c))
                        (list_ascii_of_string s)) with
  | Some bytes => inr (string_of_list_ascii bytes)
  | None => inl (errorString "illegal base64 data")
  end.

End base64.

Section QueryParamsToEnv.

(** [strings.ToUpper], and whether [os.Setenv] accepts a name and a value
    (the platform's test); both taken as given. *)
Variable strings_ToUpper : string -> string.
Variable setenvAccepts : string -> string -> bool.

(** [os.Setenv(key, value)] on the process environment: it sets the
    variable, or fails and changes nothing. *)
Definition os_Setenv (key value : string) (environ : gmap string string)
  : option (gmap string string) :=
  if setenvAccepts key value then Some (<[key := value]> environ) else None.

(** One round of the loop over the query parameters. *)
Definition setParamToEnv (environ : gmap string string)
    (param : string * list string) : gmap string string :=
  match snd param with
  | envValue :: _ =>
      match os_Setenv (strings_ToUpper (fst param)) envValue environ with
      | Some environ => environ
      | None => environ
      end
  | [] => environ
  end.

(** [wrapQueryParamsToEnv]. [order] is the order in which the [range]
    loop visits the query parameters, a permutation of the entries of
    [r.URL.Query()] that Go leaves open. *)
Definition wrapQueryParamsToEnv (order : list (string * list string))
    (handler : PageHandler) (r : Request)
    (environ : gmap string string) (w : World)
  : gmap string string * (World * list Reply) :=
  (fold_left setParamToEnv order environ, handler r w).

End QueryParamsToEnv.

(** Go's ASCII upper case, for running the model. *)
Definition ToUpperASCII (s : string) : string :=
  string_of_list_ascii
    (List.map (fun c => if GoStrings.byte_in "a" "z" c
                        then ascii_of_N (N_of_ascii c - 32) else c)
       (list_ascii_of_string s)).

(** The test of [syscall.Setenv] on Unix: a name that is not empty and has
    no equals sign and no zero byte, a value with no zero byte. *)
Definition unixSetenvAccepts (key value : string) : bool :=
  (negb (String.eqb key "") && negb (GoStrings.Contains "=" key)
   && negb (GoStrings.Contains "000" key)
   && negb (GoStrings.Contains "000" value))%bool.

(** ** Title variables (handlers.go) *)

Section TitleVariables.

(** The values of title variables ([interface{}] in Go). *)
Variable V : Type.

(** An entry of the merged map: a variable of some unit, or a whole unit
    under its name. *)
Inductive titleValue : Type :=
| titleVar (val : V)
| titleUnit (vars : gmap string V).

(** The inner loop [for key, val := range vars { titleVars[key] = val }]. *)
Definition mergeUnit (vars : gmap string V) (titleVars : gmap string titleValue)
  : gmap string titleValue :=
  map_fold (fun key val titleVars => <[key := titleVar val]> titleVars) titleVars vars.

(** The first loop over [order]; [None] is the panic
    "title variable name error". *)
Fixpoint mergeUnits (order : list string) (varUnits : gmap string (gmap string V))
    (titleVars : gmap string titleValue) : option (gmap string titleValue) :=
  match order with
  | [] => Some titleVars
  | name :: rest =>
      match varUnits !! name with
      | None => None
      | Some vars => mergeUnits rest varUnits (mergeUnit vars titleVars)
      end
  end.

(** The second loop, [titleVars[name] = varUnits[name]]; a missing unit
    reads as the nil map. *)
Definition safeNet (order : list string) (varUnits : gmap string (gmap string V))
    (titleVars : gmap string titleValue) : gmap string titleValue :=
  fold_left
    (fun titleVars name => <[name := titleUnit (default ∅ (varUnits !! name))]> titleVars)
    order titleVars.

Definition titleVariables (order : list string)
    (varUnits : gmap string (gmap string V)) : option (gmap string titleValue) :=
  safeNet order varUnits <$> mergeUnits order varUnits ∅.

(** The call in [indexVariables]. *)
Definition indexTitleVariables (TitleVariables : gmap string V) (remote_addr : V)
  : option (gmap string titleValue) :=
  titleVariables ["server"; "master"]
    (<["server" := TitleVariables]>
       (<["master" := <["remote_addr" := remote_addr]> ∅]> ∅)).

(** The call in [processWSConn]. *)
Definition sessionTitleVariables (TitleVariables : gmap string V) (remote_addr : V)
    (slaveVariables : gmap string V) : option (gmap string titleValue) :=
  titleVariables ["server"; "master"; "slave"]
    (<["server" := TitleVariables]>
       (<["master" := <["remote_addr" := remote_addr]> ∅]>
          (<["slave" := slaveVariables]> ∅))).

End TitleVariables.

(** The script [sc] with another decoded init message. *)
Definition withInit (sc : Script) (init : InitMessage) : Script :=
  mkScript (upgradeResult sc) (readResult sc) (inr init) (factoryResult sc)
    (titleResult sc) (webttyResult sc) (runResult sc).

(** ** The session guard *)

Lemma envValueDev_eqb (e : string) :
  String.eqb e envValueDev = false <-> e <> envValueDev.
Proof. apply String.eqb_neq. Qed.

Lemma finish_dev (guard : sessionGuard) (d : bool) (s : Server) :
  env guard = envValueDev -> finish guard d s = (false, s).
Proof.
  intros Hdev. unfold finish. rewrite Hdev. reflexivity.
Qed.

Lemma finish_prod (guard : sessionGuard) (d : bool) (s : Server) :
  env guard <> envValueDev ->
  finish guard d s =
    if (d && negb (decommissioned s))%bool
    then (true, mkServer true false 1)
    else (false, mkServer (decommissioned s) false (unhealthy s)).
Proof.
  intros Hprod. apply envValueDev_eqb in Hprod.
  unfold finish. rewrite Hprod. cbn.
  destruct d, (decommissioned s); reflexivity.
Qed.

Lemma finish_monotone (guard : sessionGuard) (d : bool) (s : Server) :
  decommissioned s = true -> decommissioned (snd (finish guard d s)) = true.
Proof.
  destruct s as [dec act unh]. cbn. intros ->. unfold finish.
  destruct (String.eqb (env guard) envValueDev), d; reflexivity.
Qed.

Lemma finish_healthInvariant (guard : sessionGuard) (d : bool) (s : Server) :
  healthInvariant s -> healthInvariant (snd (finish guard d s)).
Proof.
  destruct s as [dec act unh].
  unfold healthInvariant, finish, isUnhealthy. cbn. intros Hinv.
  destruct (String.eqb (env guard) envValueDev), d, dec; cbn; auto.
Qed.

Lemma begin_decommissioned (e : string) (s : Server) :
  decommissioned s = true ->
  beginManagedSession e s = (inr errServerDestroyed, s).
Proof. intros Hdec. unfold beginManagedSession. rewrite Hdec. reflexivity. Qed.

Lemma begin_keeps_flags (e : string) (s : Server) :
  decommissioned (snd (beginManagedSession e s)) = decommissioned s
  /\ unhealthy (snd (beginManagedSession e s)) = unhealthy s.
Proof.
  destruct s as [dec act unh]. unfold beginManagedSession. cbn.
  destruct dec, (String.eqb e envValueDev), act; cbn; auto.
Qed.

(** C9. Releasing a ticket is idempotent: a second [finish] with the same
    argument returns [false] and leaves the server record (so
    [activeSession] and [decommissioned]) as the first call left it;
    [activeSession] is left as it was by a second call with any argument;
    and a call of [finish] returns [true] exactly when it takes
    [decommissioned] from [false] to [true]. *)
Theorem finish_idempotent (guard : sessionGuard) (decommission again : bool)
    (s : Server) :
  let (first, s1) := finish guard decommission s in
  let (second, s2) := finish guard decommission s1 in
  s2 = s1
  /\ second = false
  /\ activeSession (snd (finish guard again s1)) = activeSession s1
  /\ (first = true <-> decommissioned s = false /\ decommissioned s1 = true).
Proof.
  destruct s as [dec act unh]. unfold finish.
  destruct (String.eqb (env guard) envValueDev), decommission, dec, again; cbn;
    repeat split; try reflexivity; try discriminate;
    intros [? ?]; congruence.
Qed.

(** C3 (amended). On a server that is not decommissioned every
    [beginManagedSession] with env = dev succeeds and returns a ticket,
    whatever [activeSession] is; on a decommissioned server it fails with
    [errServerDestroyed]. In every state a dev admission leaves the server
    record as it was, and so does the [finish] of a dev ticket, which
    returns [false]. *)
Theorem dev_bypass (s : Server) (guard : sessionGuard) (decommission : bool) :
  (decommissioned s = false ->
     beginManagedSession envValueDev s = (inl (mkGuard envValueDev), s))
  /\ (decommissioned s = true ->
        beginManagedSession envValueDev s = (inr errServerDestroyed, s))
  /\ snd (beginManagedSession envValueDev s) = s
  /\ (env guard = envValueDev -> finish guard decommission s = (false, s)).
Proof.
  destruct s as [dec act unh]. unfold beginManagedSession. cbn.
  repeat split.
  - intros ->. reflexivity.
  - intros ->. reflexivity.
  - destruct dec; reflexivity.
  - apply finish_dev.
Qed.

(** A dev session is admitted while a prod session holds the slot. *)
Lemma dev_bypass_witness :
  beginManagedSession envValueDev (mkServer false true 0)
  = (inl (mkGuard envValueDev), mkServer false true 0).
Proof.
  apply (proj1 (dev_bypass (mkServer false true 0) (mkGuard envValueDev) false)).
  reflexivity.
Defined.

(** After a prod session was finished with [decommission = true], a dev
    admission is refused. *)
Lemma dev_refused_once_decommissioned :
  let s := guarded (calls [CallBegin envValueProd; CallFinish 0 true]
                      (mkGuarded zeroServer [])) in
  decommissioned s = true
  /\ beginManagedSession envValueDev s = (inr errServerDestroyed, s).
Proof. split; reflexivity. Qed.

(** *** Mutual exclusion *)

Lemma isProd_true (guard : sessionGuard) :
  isProd guard = true <-> env guard <> envValueDev.
Proof.
  unfold isProd. rewrite negb_true_iff. apply envValueDev_eqb.
Qed.

Lemma filter_delete_length (l : list sessionGuard) (i : nat) (guard : sessionGuard) :
  l !! i = Some guard ->
  length (List.filter isProd l)
  = (length (List.filter isProd (delete i l)) + (if isProd guard then 1 else 0))%nat.
Proof.
  revert i. induction l as [|a l IH]; intros [|i] Hi; try discriminate.
  - injection Hi as ->. simpl. destruct (isProd guard); simpl; lia.
  - simpl in Hi. simpl. specialize (IH i Hi).
    destruct (isProd a); simpl; lia.
Qed.

Lemma filter_In_length (l : list sessionGuard) (guard : sessionGuard) :
  In guard l -> isProd guard = true -> (1 <= length (List.filter isProd l))%nat.
Proof.
  intros Hin Hprod.
  assert (Hf : In guard (List.filter isProd l)) by (apply filter_In; auto).
  destruct (List.filter isProd l); [destruct Hf | simpl; lia].
Qed.

Lemma call_guardInvariant (c : Call) (g : Guarded) :
  guardInvariant g -> guardInvariant (call c g).
Proof.
  destruct g as [[dec act unh] tickets]. unfold guardInvariant, liveProd. simpl.
  intros [Hcount Hdec]. destruct c as [e | ticket d]; simpl.
  - unfold beginManagedSession. simpl.
    destruct dec; simpl; [auto|].
    destruct (String.eqb e envValueDev) eqn:He; simpl.
    + rewrite List.filter_app, length_app. simpl.
      unfold isProd at 2. simpl. rewrite He. simpl. split; [lia | auto].
    + destruct act; simpl; [auto|].
      rewrite List.filter_app, length_app. simpl.
      unfold isProd at 2. simpl. rewrite He. simpl. split; [lia | discriminate].
  - destruct (tickets !! ticket) as [guard|] eqn:Hlook; simpl; [|auto].
    pose proof (filter_delete_length _ _ _ Hlook) as Hlen.
    unfold finish, isProd in *.
    destruct (String.eqb (env guard) envValueDev) eqn:He; simpl in *.
    + split; [lia | auto].
    + assert (act = true) as -> by (destruct act; [reflexivity | lia]).
      destruct d, dec; simpl; split; auto; lia.
Qed.

Lemma calls_guardInvariant (cs : list Call) (g : Guarded) :
  guardInvariant g -> guardInvariant (calls cs g).
Proof.
  revert g. induction cs as [|c cs IH]; intros g Hinv; [exact Hinv|].
  simpl. apply IH, call_guardInvariant, Hinv.
Qed.

(** C1. Start from a server with no ticket out and the prod slot free,
    and let any sequence of [beginManagedSession] and [finish] calls run
    (each ticket finished at most once). Then at most one live ticket has
    an environment other than dev; while such a ticket is live every
    [beginManagedSession] with env other than dev fails with
    [errSessionActive]; and finishing that ticket clears [activeSession]
    and leaves no live prod ticket. *)
Theorem mutual_exclusion (g0 : Guarded) (cs : list Call) :
  live g0 = [] ->
  activeSession (guarded g0) = false ->
  let g := calls cs g0 in
  (liveProd g <= 1)%nat
  /\ (forall guard, In guard (live g) -> env guard <> envValueDev ->
        forall e, e <> envValueDev ->
          beginManagedSession e (guarded g) = (inr errSessionActive, guarded g))
  /\ (forall ticket guard d,
        live g !! ticket = Some guard -> env guard <> envValueDev ->
        let g' := call (CallFinish ticket d) g in
        activeSession (guarded g') = false /\ liveProd g' = 0%nat).
Proof.
  intros Hlive Hfree g.
  assert (Hinv : guardInvariant g).
  { apply calls_guardInvariant. unfold guardInvariant, liveProd.
    rewrite Hlive, Hfree. cbn. split; [reflexivity | auto]. }
  destruct Hinv as [Hcount Hdec]. split; [|split].
  - rewrite Hcount. destruct (activeSession (guarded g)); lia.
  - intros guard Hin Hprod e He.
    apply isProd_true in Hprod. apply envValueDev_eqb in He.
    pose proof (filter_In_length _ _ Hin Hprod) as Hone.
    unfold liveProd in Hcount.
    destruct (activeSession (guarded g)) eqn:Hact; [|lia].
    unfold beginManagedSession.
    destruct (decommissioned (guarded g)); [specialize (Hdec eq_refl); discriminate|].
    rewrite He, Hact. reflexivity.
  - intros ticket guard d Hlook Hprod. cbn. rewrite Hlook. cbn. split.
    + rewrite (finish_prod _ _ _ Hprod).
      destruct (d && negb (decommissioned (guarded g)))%bool; reflexivity.
    + unfold liveProd in *. cbn.
      pose proof (filter_delete_length _ _ _ Hlook) as Hlen.
      apply isProd_true in Hprod. rewrite Hprod in Hlen.
      destruct (activeSession (guarded g)); lia.
Qed.

(** After a prod, a dev and a second prod admission attempt the first
    prod ticket is live, and one more prod admission is refused. *)
Lemma mutual_exclusion_witness :
  beginManagedSession "prod" (mkServer false true 0)
  = (inr errSessionActive, mkServer false true 0).
Proof.
  pose proof (mutual_exclusion (mkGuarded zeroServer [])
                [CallBegin "prod"; CallBegin "dev"; CallBegin "staging"]
                eq_refl eq_refl) as [_ [Hbusy _]].
  apply (Hbusy (mkGuard "prod")).
  - cbn. left. reflexivity.
  - discriminate.
  - discriminate.
Defined.

(** ** The decommission flag *)

Section HandlerFacts.

Context {ext : External}.
Variable options : Options.

Lemma session_server (e : string) (sc : Script) (r : Request) (w : World) :
  server (snd (fst (session options e sc r w))) = server w.
Proof.
  unfold session.
  destruct (negb (String.eqb (Method r) "GET")); [reflexivity|].
  cbn. destruct (upgradeResult sc); [reflexivity|].
  destruct (negb (Z.eqb (MaxConnection options) 0)
            && Z.gtb (connections w + 1) (MaxConnection options))%bool;
    [reflexivity|].
  destruct (processWSConn options sc _ _). reflexivity.
Qed.

Lemma releaseCounter_server (b : bool) (w : World) :
  server (releaseCounter options b w) = server w.
Proof.
  unfold releaseCounter. destruct b; [|reflexivity].
  cbn. destruct (Once options); reflexivity.
Qed.

(** A property of the server record that both guard operations keep is
    kept by a run of the handler. *)
Lemma handleWS_preserves (P : Server -> Prop) :
  (forall e s, P s -> P (snd (beginManagedSession e s))) ->
  (forall guard d s, P s -> P (snd (finish guard d s))) ->
  forall sc r w, P (server w) -> P (server (fst (handleWS options sc r w))).
Proof.
  intros Hbegin Hfinish sc r w HP. unfold handleWS.
  destruct (resolveEnvFromRequest r) as [e cookies].
  destruct (if Once options then CompareAndSwapInt64 (once w) 0 1
            else (true, once w)) as [success word].
  destruct success; cbn; [|exact HP].
  specialize (Hbegin e (server w) HP).
  destruct (beginManagedSession e (server w)) as [[guard | err] s]; cbn in *;
    [|exact Hbegin].
  destruct (session options e sc r _) as [[[incremented decide] w1] events] eqn:Hs.
  cbn. unfold releaseGuard.
  specialize (Hfinish guard decide (server (releaseCounter options incremented w1))).
  destruct (finish guard decide _) as [destroyed s2]. cbn in *.
  apply Hfinish. rewrite releaseCounter_server.
  pose proof (session_server e sc r (withServer s (withOnce word w))) as Hsrv.
  rewrite Hs in Hsrv. cbn in Hsrv. rewrite Hsrv. exact Hbegin.
Qed.

Lemma exec_monotone (op : Op) (w : World) :
  decommissioned (server w) = true ->
  decommissioned (server (exec options op w)) = true.
Proof.
  intros Hdec. destruct op as [e | guard d | | sc r]; cbn.
  - rewrite (proj1 (begin_keeps_flags e (server w))). exact Hdec.
  - apply finish_monotone, Hdec.
  - exact Hdec.
  - apply (handleWS_preserves (fun s => decommissioned s = true)); auto.
    + intros e s Hs. rewrite (proj1 (begin_keeps_flags e s)). exact Hs.
    + intros guard d s Hs. apply finish_monotone, Hs.
Qed.

Lemma begin_healthInvariant (e : string) (s : Server) :
  healthInvariant s -> healthInvariant (snd (beginManagedSession e s)).
Proof.
  unfold healthInvariant, isUnhealthy.
  destruct (begin_keeps_flags e s) as [-> ->]. auto.
Qed.

Lemma exec_healthInvariant (op : Op) (w : World) :
  healthInvariant (server w) -> healthInvariant (server (exec options op w)).
Proof.
  intros Hinv. destruct op as [e | guard d | | sc r]; cbn.
  - apply begin_healthInvariant, Hinv.
  - apply finish_healthInvariant, Hinv.
  - intros _. reflexivity.
  - apply (handleWS_preserves healthInvariant); auto.
    + apply begin_healthInvariant.
    + apply finish_healthInvariant.
Qed.

Lemma execs_monotone (ops : list Op) (w : World) :
  decommissioned (server w) = true ->
  decommissioned (server (execs options ops w)) = true.
Proof.
  revert w. induction ops as [|op ops IH]; intros w Hdec; [exact Hdec|].
  cbn. apply IH, exec_monotone, Hdec.
Qed.

Lemma execs_healthInvariant (ops : list Op) (w : World) :
  healthInvariant (server w) -> healthInvariant (server (execs options ops w)).
Proof.
  revert w. induction ops as [|op ops IH]; intros w Hinv; [exact Hinv|].
  cbn. apply IH, exec_healthInvariant, Hinv.
Qed.

End HandlerFacts.

(** C2. From a server that satisfies [decommissioned -> unhealthy] (a
    fresh one does), let any operations of the package run and reach a
    state [w] with [decommissioned] set. Then after any further operations
    the flag is still set, the server is unhealthy, the health gate answers
    every request with status 500 without calling the wrapped handler, and
    every [beginManagedSession] fails with [errServerDestroyed]. *)
Theorem decommission_one_way {ext : External} (options : Options)
    (w0 : World) (before after : list Op) :
  healthInvariant (server w0) ->
  let w := execs options before w0 in
  decommissioned (server w) = true ->
  let w' := execs options after w in
  decommissioned (server w') = true
  /\ isUnhealthy (server w') = true
  /\ (forall handler r,
        wrapUnhealthy handler r w'
        = (w', [HttpError "session closed" StatusInternalServerError]))
  /\ (forall e,
        beginManagedSession e (server w') = (inr errServerDestroyed, server w')).
Proof.
  intros Hinv w Hdec w'.
  assert (Hdec' : decommissioned (server w') = true)
    by (apply execs_monotone, Hdec).
  assert (Hun : isUnhealthy (server w') = true).
  { apply (execs_healthInvariant options after w); [|exact Hdec'].
    apply execs_healthInvariant, Hinv. }
  repeat split; auto.
  - intros handler r. unfold wrapUnhealthy. rewrite Hun. reflexivity.
  - intros e. apply begin_decommissioned, Hdec'.
Qed.

(** A prod session ends cleanly on a fresh server; afterwards a dev
    admission, a handler run and a health mark change nothing of it. *)
Lemma decommission_one_way_witness :
  let w' :=
    execs (ext := asciiExternal) plainOptions
      [OpBegin envValueDev;
       OpHandleWS (goodScript (mkInit "" "") None) (getRequest "ENV=dev");
       OpMarkUnhealthy]
      (execs (ext := asciiExternal) plainOptions
         [OpBegin envValueProd; OpFinish (mkGuard envValueProd) true] zeroWorld) in
  decommissioned (server w') = true
  /\ isUnhealthy (server w') = true
  /\ (forall handler r,
        wrapUnhealthy handler r w'
        = (w', [HttpError "session closed" StatusInternalServerError]))
  /\ (forall e,
        beginManagedSession e (server w') = (inr errServerDestroyed, server w')).
Proof.
  apply (decommission_one_way (ext := asciiExternal) plainOptions zeroWorld
           [OpBegin envValueProd; OpFinish (mkGuard envValueProd) true]).
  - discriminate.
  - reflexivity.
Defined.

(** ** The WebSocket handler *)

Section HandlerRuns.

Context {ext : External}.
Variable options : Options.

(** A request whose once claim fails is answered 503 and changes
    nothing. *)
Lemma handleWS_claimed (sc : Script) (r : Request) (w : World) :
  Once options = true -> once w <> 0 ->
  handleWS options sc r w
  = (w, snd (resolveEnvFromRequest r)
        ++ [HttpError "Server is shutting down" StatusServiceUnavailable]).
Proof.
  intros Honce Hword. unfold handleWS.
  destruct (resolveEnvFromRequest r) as [e cookies]. rewrite Honce.
  unfold CompareAndSwapInt64. apply Z.eqb_neq in Hword. rewrite Hword. cbn.
  destruct w; reflexivity.
Qed.

Lemma session_once (e : string) (sc : Script) (r : Request) (w : World) :
  once (snd (fst (session options e sc r w))) = once w.
Proof.
  unfold session.
  destruct (negb (String.eqb (Method r) "GET")); [reflexivity|].
  cbn. destruct (upgradeResult sc); [reflexivity|].
  destruct (negb (Z.eqb (MaxConnection options) 0)
            && Z.gtb (connections w + 1) (MaxConnection options))%bool;
    [reflexivity|].
  destruct (processWSConn options sc _ _). reflexivity.
Qed.

Lemma releaseCounter_once (b : bool) (w : World) :
  once (releaseCounter options b w) = once w.
Proof.
  unfold releaseCounter. destruct b; [|reflexivity].
  cbn. destruct (Once options); reflexivity.
Qed.

(** The server record after the two deferred releases. *)
Lemma release_server (guard : sessionGuard) (d b : bool) (w : World) :
  server (releaseGuard guard d (releaseCounter options b w))
  = snd (finish guard d (server w)).
Proof.
  unfold releaseGuard. rewrite releaseCounter_server.
  destruct (finish guard d (server w)). reflexivity.
Qed.

(** The once word after a run in once mode is never 0: the claim is not
    given back on any path. *)
Lemma handleWS_claims (sc : Script) (r : Request) (w : World) :
  Once options = true ->
  once (fst (handleWS options sc r w)) = (if Z.eqb (once w) 0 then 1 else once w).
Proof.
  intros Honce. unfold handleWS.
  destruct (resolveEnvFromRequest r) as [e cookies]. rewrite Honce.
  unfold CompareAndSwapInt64.
  destruct (Z.eqb (once w) 0) eqn:Hword; cbn; [|reflexivity].
  destruct (beginManagedSession e (server w)) as [[guard | err] s]; cbn;
    [|reflexivity].
  destruct (session options e sc r _) as [[[incremented decide] w1] events] eqn:Hs.
  cbn. unfold releaseGuard.
  destruct (finish guard decide _) as [destroyed s2]. cbn.
  rewrite releaseCounter_once.
  pose proof (session_once e sc r (withServer s (withOnce 1 w))) as Hw.
  rewrite Hs in Hw. exact Hw.
Qed.

Lemma serve_claimed (requests : list (Script * Request)) (w : World) :
  Once options = true -> once w <> 0 ->
  serve options requests w
  = (w, (fun q => snd (resolveEnvFromRequest (snd q))
                   ++ [HttpError "Server is shutting down"
                         StatusServiceUnavailable]) <$> requests).
Proof.
  intros Honce Hword. induction requests as [|[sc r] rest IH]; [reflexivity|].
  cbn [serve]. rewrite (handleWS_claimed sc r w Honce Hword), IH. reflexivity.
Qed.

(** The run of an admitted GET request: the session body, then the two
    deferred releases. *)
Lemma handleWS_admitted (sc : Script) (r : Request) (w : World)
    (guard : sessionGuard) (s : Server) :
  (Once options = true -> once w = 0) ->
  beginManagedSession (fst (resolveEnvFromRequest r)) (server w) = (inl guard, s) ->
  handleWS options sc r w
  = (let w1 := withServer s (withOnce (if Once options then 1 else once w) w) in
     let '(incremented, decide, w2, events) :=
       session options (fst (resolveEnvFromRequest r)) sc r w1 in
     (releaseGuard guard decide (releaseCounter options incremented w2),
      snd (resolveEnvFromRequest r) ++ events)).
Proof.
  intros Hclaim Hbegin. unfold handleWS.
  destruct (resolveEnvFromRequest r) as [e cookies]. cbn in *.
  destruct (Once options).
  - rewrite (Hclaim eq_refl). cbn. rewrite Hbegin. reflexivity.
  - cbn. rewrite Hbegin. reflexivity.
Qed.

(** The session body of a GET request whose upgrade succeeded. *)
Lemma session_upgraded (e : string) (sc : Script) (r : Request) (w : World) :
  Method r = "GET" -> upgradeResult sc = None ->
  session options e sc r w
  = let w1 := snd (counter_add 1 w) in
    if (negb (Z.eqb (MaxConnection options) 0)
        && Z.gtb (connections w + 1) (MaxConnection options))%bool
    then (true, false, w1,
          [Upgrade true; WriteClose 4000 "Another session is active"; ConnClose])
    else
      let '(err, events) :=
        processWSConn options sc (passedHeaders options r) (requestQuery r) in
      (true,
       if negb (String.eqb e envValueDev) then shouldDecommission err else false,
       w1, [Upgrade true] ++ events ++ [ConnClose]).
Proof.
  intros Hget Hup. unfold session. rewrite Hget, Hup. reflexivity.
Qed.

Lemma processWSConn_reads (sc : Script) (headers : option url.Values)
    (params : url.Values) :
  exists rest, snd (processWSConn options sc headers params) = ReadMessage :: rest.
Proof.
  unfold processWSConn.
  repeat match goal with
         | |- context [match ?x with _ => _ end] => destruct x
         end; cbn; eauto.
Qed.

(** The test of the connection limit, as the handler writes it. *)
Lemma limit_fits (num : Z) :
  MaxConnection options = 0 \/ num <= MaxConnection options ->
  (negb (Z.eqb (MaxConnection options) 0)
   && Z.gtb num (MaxConnection options))%bool = false.
Proof.
  intros [Hzero | Hle].
  - rewrite Hzero. reflexivity.
  - rewrite Z.gtb_ltb.
    replace (Z.ltb (MaxConnection options) num) with false
      by (symmetry; apply Z.ltb_ge; lia).
    apply andb_false_r.
Qed.

Lemma limit_exceeded (num : Z) :
  MaxConnection options <> 0 -> num > MaxConnection options ->
  (negb (Z.eqb (MaxConnection options) 0)
   && Z.gtb num (MaxConnection options))%bool = true.
Proof.
  intros Hmax Hgt. apply Z.eqb_neq in Hmax. rewrite Hmax.
  rewrite Z.gtb_ltb. cbn. apply Z.ltb_lt. lia.
Qed.

(** The run of an admitted, upgraded GET request over the limit. *)
Lemma handleWS_over_limit (sc : Script) (r : Request) (w : World)
    (guard : sessionGuard) (s : Server) :
  (Once options = true -> once w = 0) ->
  beginManagedSession (fst (resolveEnvFromRequest r)) (server w) = (inl guard, s) ->
  Method r = "GET" ->
  upgradeResult sc = None ->
  (negb (Z.eqb (MaxConnection options) 0)
   && Z.gtb (connections w + 1) (MaxConnection options))%bool = true ->
  handleWS options sc r w
  = (releaseGuard guard false
       (releaseCounter options true (snd (counter_add 1 (admittedWorld options s w)))),
     snd (resolveEnvFromRequest r)
     ++ [Upgrade true; WriteClose 4000 "Another session is active"; ConnClose]).
Proof.
  intros Hclaim Hbegin Hget Hup Hover.
  rewrite (handleWS_admitted sc r w guard s Hclaim Hbegin). cbv zeta.
  rewrite (session_upgraded _ sc r _ Hget Hup). cbv zeta.
  cbn [connections withServer withOnce]. rewrite Hover. reflexivity.
Qed.

(** The run of an admitted, upgraded GET request within the limit: it
    goes through [processWSConn], and its ticket is finished with the
    verdict on the error, or with [false] for a dev session. *)
Lemma handleWS_bridged (sc : Script) (r : Request) (w : World)
    (guard : sessionGuard) (s : Server) :
  (Once options = true -> once w = 0) ->
  beginManagedSession (fst (resolveEnvFromRequest r)) (server w) = (inl guard, s) ->
  Method r = "GET" ->
  upgradeResult sc = None ->
  (negb (Z.eqb (MaxConnection options) 0)
   && Z.gtb (connections w + 1) (MaxConnection options))%bool = false ->
  let result := processWSConn options sc (passedHeaders options r) (requestQuery r) in
  handleWS options sc r w
  = (releaseGuard guard
       (if negb (String.eqb (fst (resolveEnvFromRequest r)) envValueDev)
        then shouldDecommission (fst result) else false)
       (releaseCounter options true (snd (counter_add 1 (admittedWorld options s w)))),
     snd (resolveEnvFromRequest r) ++ [Upgrade true] ++ snd result ++ [ConnClose]).
Proof.
  intros Hclaim Hbegin Hget Hup Hfits result. unfold result.
  rewrite (handleWS_admitted sc r w guard s Hclaim Hbegin). cbv zeta.
  rewrite (session_upgraded _ sc r _ Hget Hup). cbv zeta.
  cbn [connections withServer withOnce]. rewrite Hfits.
  destruct (processWSConn options sc _ _) as [err events]. reflexivity.
Qed.

(** What an admission that succeeded says of the ticket and the server. *)
Lemma begin_admitted (e : string) (s0 s : Server) (guard : sessionGuard) :
  beginManagedSession e s0 = (inl guard, s) ->
  env guard = e /\ decommissioned s = false /\ (e = envValueDev -> s = s0).
Proof.
  unfold beginManagedSession.
  destruct (decommissioned s0) eqn:Hd; [discriminate|].
  destruct (String.eqb e envValueDev) eqn:He.
  - intros [= <- <-]. apply String.eqb_eq in He. auto.
  - destruct (activeSession s0); [discriminate|].
    intros [= <- <-]. apply String.eqb_neq in He. cbn. tauto.
Qed.

End HandlerRuns.

(** C10. In once mode, on a handler whose once word is still 0, the first
    request claims the word before admission and leaves it at 1 whatever
    becomes of the request (admission refused, method not GET, session
    run); every later request is answered 503 "Server is shutting down"
    (after the cookie of its environment, if any) and changes nothing. *)
Theorem once_claim_is_final {ext : External} (options : Options)
    (first : Script * Request) (rest : list (Script * Request)) (w : World) :
  Once options = true ->
  once w = 0 ->
  let w1 := fst (handleWS options (fst first) (snd first) w) in
  once w1 = 1
  /\ fst (serve options (first :: rest) w) = w1
  /\ forall (i : nat) sc r,
       rest !! i = Some (sc, r) ->
       snd (serve options (first :: rest) w) !! S i
       = Some (snd (resolveEnvFromRequest r)
               ++ [HttpError "Server is shutting down" StatusServiceUnavailable]).
Proof.
  intros Honce Hword w1.
  assert (Hw1 : once w1 = 1).
  { unfold w1. rewrite handleWS_claims by exact Honce. rewrite Hword. reflexivity. }
  assert (Hne : once w1 <> 0) by lia.
  destruct first as [sc0 r0]. cbn [serve fst snd] in *.
  destruct (handleWS options sc0 r0 w) as [wa response] eqn:Hfirst.
  cbn in w1. subst w1.
  rewrite (serve_claimed options rest wa Honce Hne). cbn [fst snd].
  split; [exact Hw1|]. split; [reflexivity|].
  intros i sc r Hi. change ((response :: ?l) !! S i) with (l !! i).
  rewrite list_lookup_fmap, Hi. reflexivity.
Qed.

(** The first request is a POST, so no session is set up; the GET that
    follows is still turned away. *)
Lemma once_claim_is_final_witness :
  snd (serve (ext := asciiExternal) (mkOptions true 0 false "" true)
         [(goodScript (mkInit "" "") None, mkRequest "POST" "" ∅ []);
          (goodScript (mkInit "" "") None, getRequest "")]
         zeroWorld) !! 1%nat
  = Some [HttpError "Server is shutting down" StatusServiceUnavailable].
Proof.
  refine (proj2 (proj2 (once_claim_is_final (ext := asciiExternal)
            (mkOptions true 0 false "" true)
            (goodScript (mkInit "" "") None, mkRequest "POST" "" ∅ [])
            [(goodScript (mkInit "" "") None, getRequest "")]
            zeroWorld eq_refl eq_refl)) 0%nat _ _ eq_refl).
Defined.

(** C5. For a request that passed the once claim and admission, is a GET
    and was upgraded, let [num] be the count after its increment. If
    [MaxConnection] is positive and [num] exceeds it, the handler writes a
    close frame with code 4000 and reason "Another session is active" and
    closes the connection; nothing is read and no backend is created. If
    [num] does not exceed [MaxConnection], or [MaxConnection] is 0, the
    handler goes on to [processWSConn], whose first call reads the
    authentication frame. *)
Theorem max_connection_check {ext : External} (options : Options)
    (sc : Script) (r : Request) (w : World) (guard : sessionGuard) (s : Server) :
  (Once options = true -> once w = 0) ->
  beginManagedSession (fst (resolveEnvFromRequest r)) (server w) = (inl guard, s) ->
  Method r = "GET" ->
  upgradeResult sc = None ->
  let num := connections w + 1 in
  let events := snd (handleWS options sc r w) in
  (0 < MaxConnection options -> num > MaxConnection options ->
     events = snd (resolveEnvFromRequest r)
              ++ [Upgrade true; WriteClose 4000 "Another session is active"; ConnClose])
  /\ (num <= MaxConnection options \/ MaxConnection options = 0 ->
      exists rest,
        snd (processWSConn options sc (passedHeaders options r) (requestQuery r))
        = ReadMessage :: rest
        /\ events = snd (resolveEnvFromRequest r)
                    ++ [Upgrade true] ++ (ReadMessage :: rest) ++ [ConnClose]).
Proof.
  intros Hclaim Hbegin Hget Hup num events. unfold events, num. split.
  - intros Hpos Hgt.
    rewrite (handleWS_over_limit options sc r w guard s Hclaim Hbegin Hget Hup);
      [reflexivity|].
    apply limit_exceeded; lia.
  - intros Hfits.
    rewrite (handleWS_bridged options sc r w guard s Hclaim Hbegin Hget Hup)
      by (apply limit_fits; tauto).
    destruct (processWSConn_reads options sc (passedHeaders options r) (requestQuery r))
      as [rest Hrest].
    exists rest. split; [exact Hrest|]. cbn [snd]. rewrite Hrest. reflexivity.
Qed.

(** With [MaxConnection = 1] and one session already counted, the second
    one is sent close code 4000. *)
Lemma max_connection_check_witness :
  snd (handleWS (ext := asciiExternal) (mkOptions false 1 false "" true)
         (goodScript (mkInit "" "") None) (getRequest "ENV=dev")
         (mkWorld zeroServer 0 1 false))
  = [SetCookie (mkCookie envCookieName "dev" "/");
     Upgrade true; WriteClose 4000 "Another session is active"; ConnClose].
Proof.
  refine (proj1 (max_connection_check (ext := asciiExternal)
            (mkOptions false 1 false "" true)
            (goodScript (mkInit "" "") None) (getRequest "ENV=dev")
            (mkWorld zeroServer 0 1 false) (mkGuard "dev") zeroServer
            _ eq_refl eq_refl eq_refl) _ _).
  - discriminate.
  - reflexivity.
  - reflexivity.
Defined.

(** ** Close-reason classification *)

Lemma shouldDecommission_Wrapf (err : error) (format : string) :
  shouldDecommission (pkgerrors.Wrapf err format) = shouldDecommission (Some err).
Proof. reflexivity. Qed.

Lemma shouldDecommission_New (message : string) :
  shouldDecommission (Some (pkgerrors.New message)) = false.
Proof. reflexivity. Qed.

Lemma shouldDecommission_spec (err : option error) :
  shouldDecommission err = true
  <-> err = None
      \/ exists cause,
           pkgerrors.Cause err = Some cause
           /\ (contextCancellation cause
               \/ cause = webtty_ErrMasterClosed \/ cause = webtty_ErrSlaveClosed).
Proof.
  unfold shouldDecommission, contextCancellation.
  destruct err as [e|]; [|split; auto].
  destruct (pkgerrors.Cause (Some e)) as [cause|]; split.
  - destruct cause; try discriminate; intros _; right; eexists;
      (split; [reflexivity|]); auto.
  - intros [Hnil | [c [[= <-] Hkind]]]; [discriminate|].
    destruct Hkind as [[-> | ->] | [-> | ->]]; reflexivity.
  - discriminate.
  - intros [Hnil | [c [Hc _]]]; discriminate.
Qed.

(** C4. [shouldDecommission err] is true exactly when [err] is nil or its
    cause ([pkgerrors.Cause]) is one of the two context errors
    ([context.Canceled], [context.DeadlineExceeded]) or one of
    [webtty.ErrMasterClosed], [webtty.ErrSlaveClosed]. A handler run that
    reaches [processWSConn] and gets [err] from it finishes its ticket with
    that verdict when the environment is not dev (the decommissioned flag
    afterwards is [shouldDecommission err]); for a dev session the verdict
    is not used and the server record is left as it was. *)
Theorem close_reason_classifier {ext : External} (options : Options)
    (sc : Script) (r : Request) (w : World) (guard : sessionGuard) (s : Server)
    (any : option error) :
  (shouldDecommission any = true
   <-> any = None
       \/ exists cause,
            pkgerrors.Cause any = Some cause
            /\ (contextCancellation cause
                \/ cause = webtty_ErrMasterClosed \/ cause = webtty_ErrSlaveClosed))
  /\ ((Once options = true -> once w = 0) ->
      beginManagedSession (fst (resolveEnvFromRequest r)) (server w) = (inl guard, s) ->
      Method r = "GET" ->
      upgradeResult sc = None ->
      MaxConnection options = 0 \/ connections w + 1 <= MaxConnection options ->
      let e := fst (resolveEnvFromRequest r) in
      let err := fst (processWSConn options sc (passedHeaders options r)
                        (requestQuery r)) in
      let after := server (fst (handleWS options sc r w)) in
      (e <> envValueDev ->
         after = snd (finish guard (shouldDecommission err) s)
         /\ decommissioned after = shouldDecommission err)
      /\ (e = envValueDev -> after = server w)).
Proof.
  split; [apply shouldDecommission_spec|].
  intros Hclaim Hbegin Hget Hup Hfits e err after. unfold after, err.
  rewrite (handleWS_bridged options sc r w guard s Hclaim Hbegin Hget Hup)
    by (apply limit_fits, Hfits).
  cbn [fst]. rewrite release_server.
  cbn [counter_add snd server withServer admittedWorld].
  fold e. destruct (begin_admitted _ _ _ _ Hbegin) as [Henv [Hdec Hsame]].
  fold e in Henv, Hsame. split.
  - intros Hprod. apply envValueDev_eqb in Hprod. rewrite Hprod. cbn [negb].
    split; [reflexivity|].
    rewrite finish_prod by (rewrite Henv; apply envValueDev_eqb, Hprod).
    rewrite Hdec. destruct (shouldDecommission _); reflexivity.
  - intros Hdev. rewrite (Hsame Hdev).
    rewrite finish_dev by congruence. reflexivity.
Qed.

(** A prod session whose bridge ends with [ErrSlaveClosed] decommissions
    the server. *)
Lemma close_reason_classifier_witness :
  decommissioned
    (server (fst (handleWS (ext := asciiExternal) plainOptions
                    (goodScript (mkInit "" "") (Some webtty_ErrSlaveClosed))
                    (getRequest "") zeroWorld)))
  = true.
Proof.
  refine (proj2 (proj1 (proj2 (close_reason_classifier (ext := asciiExternal)
            plainOptions (goodScript (mkInit "" "") (Some webtty_ErrSlaveClosed))
            (getRequest "") zeroWorld (mkGuard envValueProd)
            (mkServer false true 0) None)
            _ eq_refl eq_refl eq_refl _) _)).
  - discriminate.
  - left. reflexivity.
  - discriminate.
Defined.

(** ** Authentication *)

(** C7. [processWSConn] returns an error and never calls the backend
    factory when the first frame is not a text frame, when its payload
    does not decode to an [InitMessage], or when the decoded [AuthToken]
    differs from the credential; if the factory is called, then a text
    frame was read, it decoded, and its token equals the credential. *)
Theorem auth_rejection {ext : External} (options : Options) (sc : Script)
    (headers : option url.Values) (params : url.Values) :
  let err := fst (processWSConn options sc headers params) in
  let events := snd (processWSConn options sc headers params) in
  ((exists typ payload, readResult sc = inr (typ, payload) /\ typ <> TextMessage)
   \/ (exists e, unmarshalResult sc = inl e)
   \/ (exists init, unmarshalResult sc = inr init
                    /\ AuthToken init <> Credential options) ->
   err <> None /\ invokesFactory events = false)
  /\ (invokesFactory events = true ->
      exists payload init,
        readResult sc = inr (TextMessage, payload)
        /\ unmarshalResult sc = inr init
        /\ AuthToken init = Credential options).
Proof.
  cbv zeta. unfold processWSConn.
  destruct (readResult sc) as [rerr | [typ payload]]; cbn.
  { split; [intros _; split; [discriminate | reflexivity] | discriminate]. }
  destruct (Z.eqb typ TextMessage) eqn:Htyp; cbn.
  2:{ split; [intros _; split; [discriminate | reflexivity] | discriminate]. }
  apply Z.eqb_eq in Htyp. subst typ.
  destruct (unmarshalResult sc) as [uerr | init]; cbn.
  { split; [intros _; split; [discriminate | reflexivity] | discriminate]. }
  destruct (String.eqb (AuthToken init) (Credential options)) eqn:Htok; cbn.
  2:{ split; [intros _; split; [discriminate | reflexivity] | discriminate]. }
  apply String.eqb_eq in Htok. split.
  - intros [[typ [p [[= <- _] Hne]]] | [[e [=]] | [i [[= <-] Hne]]]]; contradiction.
  - intros _. eauto.
Qed.

(** A text frame with a wrong token: an error, and no backend. *)
Lemma auth_rejection_witness :
  fst (processWSConn (ext := asciiExternal) (mkOptions false 0 false "secret" true)
         (goodScript (mkInit "" "guess") None) None ∅)
  <> None
  /\ invokesFactory
       (snd (processWSConn (ext := asciiExternal) (mkOptions false 0 false "secret" true)
               (goodScript (mkInit "" "guess") None) None ∅))
     = false.
Proof.
  apply (proj1 (auth_rejection (ext := asciiExternal)
                  (mkOptions false 0 false "secret" true)
                  (goodScript (mkInit "" "guess") None) None ∅)).
  right. right. exists (mkInit "" "guess"). split; [reflexivity | discriminate].
Defined.

(** ** Argument merging *)

Lemma mergeParams_union (http params : url.Values) :
  mergeParams http params = http ∪ params.
Proof.
  unfold mergeParams.
  apply (map_fold_weak_ind (fun merged m => merged = m ∪ params)).
  - symmetry. apply (left_id_L ∅ (∪)).
  - intros key values m merged _ ->. apply insert_union_l.
Qed.

Lemma mergeParams_lookup (http params : url.Values) (key : string) :
  mergeParams http params !! key
  = match http !! key with
    | Some values => Some values
    | None => params !! key
    end.
Proof.
  rewrite mergeParams_union. destruct (http !! key) as [values|] eqn:Hkey.
  - apply lookup_union_Some_l, Hkey.
  - apply lookup_union_r, Hkey.
Qed.

(** C6 (amended). With arguments permitted and an authenticated init
    message whose non-empty [Arguments] parse as a URL, the factory gets
    the query of that URL overlaid with the HTTP query: a key of the HTTP
    query has the HTTP values, any other key keeps the values of the init
    message. [Arguments] is parsed as a URL reference, so its parameters
    are what follows a question mark: with [Arguments = "?foo=1&bar=2"]
    and HTTP query [bar=3] the factory gets [foo -> ["1"], bar -> ["3"]]. *)
Theorem argument_merge :
  (forall (ext : External) (options : Options) (sc : Script)
          (headers : option url.Values) (http : url.Values)
          (payload : string) (init : InitMessage) (query : url.URL),
      PermitArguments options = true ->
      readResult sc = inr (TextMessage, payload) ->
      unmarshalResult sc = inr init ->
      AuthToken init = Credential options ->
      Arguments init <> "" ->
      url_Parse (Arguments init) = inr query ->
      let merged := mergeParams http (url.Query query) in
      (exists rest,
          snd (processWSConn options sc headers http)
          = ReadMessage :: FactoryNew merged headers :: rest)
      /\ forall key,
           (forall values, http !! key = Some values -> merged !! key = Some values)
           /\ (http !! key = None -> merged !! key = url.Query query !! key))
  /\ snd (processWSConn (ext := asciiExternal) plainOptions
            (goodScript (mkInit "?foo=1&bar=2" "") None) None
            (requestQuery (getRequest "bar=3")))
     = [ReadMessage;
        FactoryNew (<["foo" := ["1"]]> (<["bar" := ["3"]]> ∅)) None;
        TtyRun; SlaveClose].
Proof.
  split.
  - intros ext options sc headers http payload init query
      Hpermit Hread Hjson Htok Hargs Hparse merged.
    split.
    + unfold processWSConn. rewrite Hread, Hjson. cbn.
      rewrite Htok, String.eqb_refl, Hpermit. cbn.
      apply String.eqb_neq in Hargs. rewrite Hargs. cbn. rewrite Hparse.
      destruct (factoryResult sc), (titleResult sc), (webttyResult sc);
        cbn; eauto.
    + intros key. unfold merged. rewrite mergeParams_lookup. split.
      * intros values ->. reflexivity.
      * intros ->. reflexivity.
  - vm_compute. reflexivity.
Qed.

(** The init message asks for [?user=a] and the link says [user=b]: the
    link wins. *)
Lemma argument_merge_witness :
  mergeParams (requestQuery (getRequest "user=b")) (url.ParseQuery "user=a")
    !! "user"
  = Some ["b"].
Proof.
  refine (proj1 (proj2 (proj1 argument_merge asciiExternal plainOptions
            (goodScript (mkInit "?user=a" "") None) None
            (requestQuery (getRequest "user=b")) "init" (mkInit "?user=a" "")
            (url.mkURL "" "" "" false "user=a" "")
            eq_refl eq_refl eq_refl eq_refl _ eq_refl) "user") ["b"] eq_refl).
  discriminate.
Defined.

(** [Arguments = "foo=1&bar=2"], with no question mark in front, is a URL
    whose path is that text and whose query is empty: with HTTP query
    [bar=3] the factory gets [bar -> ["3"]] alone, and [foo] is lost. *)
Lemma bare_arguments_are_a_path :
  url_Parse (External := asciiExternal) "foo=1&bar=2"
  = inr (url.mkURL "" "" "foo=1&bar=2" false "" "")
  /\ snd (processWSConn (ext := asciiExternal) plainOptions
            (goodScript (mkInit "foo=1&bar=2" "") None) None
            (requestQuery (getRequest "bar=3")))
     = [ReadMessage; FactoryNew (<["bar" := ["3"]]> ∅) None; TtyRun; SlaveClose].
Proof. split; vm_compute; reflexivity. Qed.

(** ** Environment resolution *)

(** C8 (amended). [resolveEnvFromRequest] is a total function of the
    request. Let [v] be the first [ENV] query value with surrounding white
    space trimmed. If [v] is not empty, the result is [v] in lower case and
    a [gotty.env] cookie with path "/" is set that carries [v] as trimmed,
    in its own case. Otherwise no cookie is set; if the request has a
    [gotty.env] cookie with a non-empty value the result is that value in
    lower case, and in every remaining case the result is "prod". *)
Theorem resolveEnv_cases {ext : External} (r : Request) :
  let v := strings_TrimSpace (url.Get (requestQuery r) envQueryParam) in
  (v <> "" ->
     resolveEnvFromRequest r
     = (strings_ToLower v, [SetCookie (mkCookie envCookieName v "/")]))
  /\ (v = "" ->
      forall cookie,
        requestCookie r envCookieName = Some cookie -> Value cookie <> "" ->
        resolveEnvFromRequest r = (strings_ToLower (Value cookie), []))
  /\ (v = "" ->
      requestCookie r envCookieName = None
      \/ (exists cookie,
            requestCookie r envCookieName = Some cookie /\ Value cookie = "") ->
      resolveEnvFromRequest r = (envValueProd, [])).
Proof.
  intros v. unfold resolveEnvFromRequest. fold v. split; [|split].
  - intros Hv. apply String.eqb_neq in Hv. rewrite Hv. cbn.
    rewrite Hv. reflexivity.
  - intros -> cookie -> Hvalue. cbn.
    apply String.eqb_neq in Hvalue. rewrite Hvalue. reflexivity.
  - intros -> [-> | [cookie [-> ->]]]; reflexivity.
Qed.

(** [?ENV=%20Dev%20] resolves to "dev" and sets the cookie to "Dev". *)
Lemma resolveEnv_cases_witness :
  resolveEnvFromRequest (ext := asciiExternal) (getRequest "ENV=%20Dev%20")
  = ("dev", [SetCookie (mkCookie envCookieName "Dev" "/")]).
Proof.
  apply (proj1 (resolveEnv_cases (ext := asciiExternal) (getRequest "ENV=%20Dev%20"))).
  discriminate.
Defined.

(** [?ENV=DEV] resolves to "dev", but the cookie set on the response
    carries "DEV", not the lower-case value. *)
Lemma cookie_keeps_case :
  resolveEnvFromRequest (ext := asciiExternal) (getRequest "ENV=DEV")
  = ("dev", [SetCookie (mkCookie envCookieName "DEV" "/")]).
Proof. reflexivity. Qed.

(** ** Further properties of the handler *)

Section HandlerBalance.

Context {ext : External}.
Variable options : Options.

Lemma session_connections (e : string) (sc : Script) (r : Request) (w : World) :
  let '(incremented, _, w1, _) := session options e sc r w in
  connections w1 = connections w + (if incremented then 1 else 0).
Proof.
  unfold session.
  destruct (negb (String.eqb (Method r) "GET")); [cbn; lia|].
  cbn. destruct (upgradeResult sc); [reflexivity|].
  destruct (negb (Z.eqb (MaxConnection options) 0)
            && Z.gtb (connections w + 1) (MaxConnection options))%bool;
    [reflexivity|].
  destruct (processWSConn options sc _ _). reflexivity.
Qed.

Lemma releaseCounter_connections (b : bool) (w : World) :
  connections (releaseCounter options b w)
  = connections w - (if b then 1 else 0).
Proof.
  unfold releaseCounter. destruct b; [|cbn; lia].
  cbn. destruct (Once options); reflexivity.
Qed.

Lemma releaseGuard_connections (guard : sessionGuard) (d : bool) (w : World) :
  connections (releaseGuard guard d w) = connections w.
Proof.
  unfold releaseGuard. destruct (finish guard d (server w)). reflexivity.
Qed.

End HandlerBalance.

(** Counter balance: a run of the handler leaves the connection count as
    it found it; the increment after the method check is undone by the
    deferred function on every path. *)
Theorem counter_balanced {ext : External} (options : Options)
    (sc : Script) (r : Request) (w : World) :
  connections (fst (handleWS options sc r w)) = connections w.
Proof.
  unfold handleWS.
  destruct (resolveEnvFromRequest r) as [e cookies].
  destruct (if Once options then CompareAndSwapInt64 (once w) 0 1
            else (true, once w)) as [success word].
  destruct success; cbn; [|reflexivity].
  destruct (beginManagedSession e (server w)) as [[guard | err] s]; cbn;
    [|reflexivity].
  pose proof (session_connections options e sc r (withServer s (withOnce word w)))
    as Hsession.
  destruct (session options e sc r _) as [[[incremented decide] w1] events].
  cbn. rewrite releaseGuard_connections, releaseCounter_connections, Hsession.
  cbn. lia.
Qed.

(** The limit test is [MaxConnection != 0], so a negative [MaxConnection]
    turns every upgraded session away with close code 4000. *)
Theorem negative_limit_rejects {ext : External} (options : Options)
    (sc : Script) (r : Request) (w : World) (guard : sessionGuard) (s : Server) :
  (Once options = true -> once w = 0) ->
  beginManagedSession (fst (resolveEnvFromRequest r)) (server w) = (inl guard, s) ->
  Method r = "GET" ->
  upgradeResult sc = None ->
  MaxConnection options < 0 ->
  0 <= connections w ->
  snd (handleWS options sc r w)
  = snd (resolveEnvFromRequest r)
    ++ [Upgrade true; WriteClose 4000 "Another session is active"; ConnClose].
Proof.
  intros Hclaim Hbegin Hget Hup Hneg Hcount.
  rewrite (handleWS_over_limit options sc r w guard s Hclaim Hbegin Hget Hup);
    [reflexivity|].
  apply limit_exceeded; lia.
Qed.

Lemma negative_limit_rejects_witness :
  snd (handleWS (ext := asciiExternal) (mkOptions false (-1) false "" true)
         (goodScript (mkInit "" "") None) (getRequest "") zeroWorld)
  = [Upgrade true; WriteClose 4000 "Another session is active"; ConnClose].
Proof.
  refine (negative_limit_rejects (ext := asciiExternal)
            (mkOptions false (-1) false "" true)
            (goodScript (mkInit "" "") None) (getRequest "") zeroWorld
            (mkGuard envValueProd) (mkServer false true 0)
            _ eq_refl eq_refl eq_refl _ _).
  - discriminate.
  - reflexivity.
  - discriminate.
Defined.

(** A refused admission is answered 503: "Server is unavailable" on a
    decommissioned server, "Another session is active" when a prod slot is
    taken and the request is not a dev one; the server record is not
    touched. *)
Theorem admission_refusals {ext : External} (options : Options)
    (sc : Script) (r : Request) (w : World) :
  (Once options = true -> once w = 0) ->
  let e := fst (resolveEnvFromRequest r) in
  let w' := fst (handleWS options sc r w) in
  let events := snd (handleWS options sc r w) in
  (decommissioned (server w) = true ->
     server w' = server w
     /\ events = snd (resolveEnvFromRequest r)
                 ++ [HttpError "Server is unavailable" StatusServiceUnavailable])
  /\ (decommissioned (server w) = false -> e <> envValueDev ->
      activeSession (server w) = true ->
      server w' = server w
      /\ events = snd (resolveEnvFromRequest r)
                  ++ [HttpError "Another session is active" StatusServiceUnavailable]).
Proof.
  intros Hclaim e w' events. unfold w', events, handleWS. subst e.
  destruct (resolveEnvFromRequest r) as [e cookies]. cbn [fst snd].
  assert (Hcas : (if Once options then CompareAndSwapInt64 (once w) 0 1
                  else (true, once w))
                 = (true, if Once options then 1 else once w)).
  { destruct (Once options); [rewrite (Hclaim eq_refl)|]; reflexivity. }
  rewrite Hcas. cbn [negb withOnce server]. unfold beginManagedSession.
  split.
  - intros ->. cbn. split; reflexivity.
  - intros -> Hprod ->. apply envValueDev_eqb in Hprod. rewrite Hprod.
    cbn. split; reflexivity.
Qed.

Lemma admission_refusals_witness :
  snd (handleWS (ext := asciiExternal) plainOptions
         (goodScript (mkInit "" "") None) (getRequest "")
         (mkWorld (mkServer false true 0) 0 1 false))
  = [HttpError "Another session is active" StatusServiceUnavailable].
Proof.
  refine (proj2 (proj2 (admission_refusals (ext := asciiExternal) plainOptions
            (goodScript (mkInit "" "") None) (getRequest "")
            (mkWorld (mkServer false true 0) 0 1 false) _) eq_refl _ eq_refl)).
  - discriminate.
  - discriminate.
Defined.

(** A prod session whose handshake ends with an error that is no clean
    termination (a wrong token, say) frees the slot and leaves the server
    in service: the next admission succeeds. *)
Theorem slot_reuse_after_failure {ext : External} (options : Options)
    (sc : Script) (r : Request) (w : World) (guard : sessionGuard) (s : Server) :
  (Once options = true -> once w = 0) ->
  beginManagedSession (fst (resolveEnvFromRequest r)) (server w) = (inl guard, s) ->
  fst (resolveEnvFromRequest r) <> envValueDev ->
  Method r = "GET" ->
  upgradeResult sc = None ->
  MaxConnection options = 0 \/ connections w + 1 <= MaxConnection options ->
  shouldDecommission
    (fst (processWSConn options sc (passedHeaders options r) (requestQuery r)))
  = false ->
  let after := server (fst (handleWS options sc r w)) in
  after = mkServer false false (unhealthy (server w))
  /\ forall e, exists s', beginManagedSession e after = (inl (mkGuard e), s').
Proof.
  intros Hclaim Hbegin Hprod Hget Hup Hfits Hverdict after.
  assert (Hafter : after = mkServer false false (unhealthy (server w))).
  { unfold after.
    rewrite (handleWS_bridged options sc r w guard s Hclaim Hbegin Hget Hup)
      by (apply limit_fits, Hfits).
    cbn [fst]. rewrite release_server.
    cbn [counter_add snd server withServer admittedWorld].
    destruct (begin_admitted _ _ _ _ Hbegin) as [Henv [Hdec _]].
    rewrite Hverdict.
    replace (if negb (String.eqb (fst (resolveEnvFromRequest r)) envValueDev)
             then false else false) with false
      by (destruct (negb _); reflexivity).
    rewrite finish_prod by congruence.
    rewrite Hdec. cbn.
    destruct (begin_keeps_flags (fst (resolveEnvFromRequest r)) (server w))
      as [_ Hun].
    rewrite Hbegin in Hun. cbn in Hun. rewrite Hun. reflexivity. }
  split; [exact Hafter|].
  intros e. rewrite Hafter. unfold beginManagedSession. cbn.
  destruct (String.eqb e envValueDev); eauto.
Qed.

Lemma slot_reuse_after_failure_witness :
  server (fst (handleWS (ext := asciiExternal) (mkOptions false 0 false "secret" true)
                 (goodScript (mkInit "" "guess") None) (getRequest "") zeroWorld))
  = mkServer false false 0.
Proof.
  refine (proj1 (slot_reuse_after_failure (ext := asciiExternal)
            (mkOptions false 0 false "secret" true)
            (goodScript (mkInit "" "guess") None) (getRequest "") zeroWorld
            (mkGuard envValueProd) (mkServer false true 0)
            _ eq_refl _ eq_refl eq_refl _ eq_refl)).
  - discriminate.
  - discriminate.
  - left. reflexivity.
Defined.

(** ** Basic authentication (part_000) *)

Lemma Cut_found (sep : ascii) (before after : string) :
  GoStrings.Count sep before = 0%nat ->
  GoStrings.Cut sep (String.append before (String sep after)) = (before, after, true).
Proof.
  induction before as [|c before IH].
  - intros _. change (String.append "" (String sep after)) with (String sep after).
    cbn [GoStrings.Cut]. rewrite Ascii.eqb_refl. reflexivity.
  - change (String.append (String c before) (String sep after))
      with (String c (String.append before (String sep after))).
    cbn [GoStrings.Cut GoStrings.Count].
    destruct (Ascii.eqb c sep); [discriminate|]. intros Hcount.
    rewrite (IH Hcount). reflexivity.
Qed.

Lemma Cut_not_found (sep : ascii) (s : string) :
  GoStrings.Count sep s = 0%nat -> GoStrings.Cut sep s = (s, EmptyString, false).
Proof.
  induction s as [|c s IH]; cbn [GoStrings.Cut GoStrings.Count]; [reflexivity|].
  destruct (Ascii.eqb c sep); [discriminate|]. intros Hcount.
  rewrite (IH Hcount). reflexivity.
Qed.

(** Basic authentication lets a request through exactly when its
    [Authorization] header is a scheme and a token separated by the first
    space, the scheme is "basic" in any case, and the token decodes to the
    credential. A header without a space (or none) or with another scheme
    is answered 401 "Bad Request" with a challenge, a token that does not
    decode 500 without one, any other payload 401 "authorization failed"
    with a challenge; on these paths the wrapped handler is not run and
    the world is left as it was. *)
Theorem basic_auth_gate {ext : External} (decode : string -> error + string)
    (handler : PageHandler) (credential : string) (r : Request) (w : World) :
  let header := headerGet (Header r) "Authorization" in
  let out := wrapBasicAuth decode handler credential r w in
  (GoStrings.Count " " header = 0%nat -> out = (w, challengeReply "Bad Request"))
  /\ forall scheme encoded,
       header = String.append scheme (String " " encoded) ->
       GoStrings.Count " " scheme = 0%nat ->
       (strings_ToLower scheme <> "basic" -> out = (w, challengeReply "Bad Request"))
       /\ (strings_ToLower scheme = "basic" ->
           (forall err, decode encoded = inl err -> out = (w, decodeFailureReply))
           /\ (forall payload, decode encoded = inr payload -> payload <> credential ->
                 out = (w, challengeReply "authorization failed"))
           /\ (decode encoded = inr credential -> out = handler r w)).
Proof.
  intros header out. unfold out, wrapBasicAuth, SplitN2. fold header. split.
  - intros Hnone. rewrite (Cut_not_found _ _ Hnone). reflexivity.
  - intros scheme encoded Hheader Hscheme.
    assert (Hcut : GoStrings.Cut " " header = (scheme, encoded, true))
      by (rewrite Hheader; apply Cut_found, Hscheme).
    rewrite Hcut. split.
    + intros Hother. apply String.eqb_neq in Hother. rewrite Hother. reflexivity.
    + intros Hbasic. rewrite Hbasic. cbn [String.eqb negb].
      replace (String.eqb "basic" "basic") with true by reflexivity. cbn [negb].
      repeat split.
      * intros err ->. reflexivity.
      * intros payload -> Hne.
        assert (Hneq : String.eqb credential payload = false)
          by (apply String.eqb_neq; congruence).
        rewrite Hneq. reflexivity.
      * intros ->. rewrite String.eqb_refl. reflexivity.
Qed.

(** [Authorization: bAsIc dXNlcjpwYXNz] carries "user:pass". *)
Lemma basic_auth_gate_witness :
  wrapBasicAuth (ext := asciiExternal) base64.DecodeString
    (serveHandler (fun _ w => (w, []))) "user:pass"
    (mkRequest "GET" "" (<["Authorization" := ["bAsIc dXNlcjpwYXNz"]]> ∅) [])
    zeroWorld
  = (zeroWorld, []).
Proof.
  refine (proj2 (proj2 (proj2 (proj2 (basic_auth_gate (ext := asciiExternal)
            base64.DecodeString (serveHandler (fun _ w => (w, []))) "user:pass"
            (mkRequest "GET" "" (<["Authorization" := ["bAsIc dXNlcjpwYXNz"]]> ∅) [])
            zeroWorld) "bAsIc" "dXNlcjpwYXNz" eq_refl eq_refl) eq_refl)) eq_refl).
Defined.

(** ** Query parameters to environment variables (part_000) *)

Section QueryParamsToEnvFacts.

Variable ToUpper : string -> string.
Variable accepts : string -> string -> bool.

(** A round of the loop changes at most the variable it names. *)
Lemma setParamToEnv_other (environ : gmap string string)
    (param : string * list string) (name : string) :
  ToUpper (fst param) <> name ->
  setParamToEnv ToUpper accepts environ param !! name = environ !! name.
Proof.
  intros Hother. unfold setParamToEnv, os_Setenv.
  destruct (snd param) as [|value rest]; [reflexivity|].
  destruct (accepts (ToUpper (fst param)) value); [|reflexivity].
  apply lookup_insert_ne, Hother.
Qed.

Lemma setParams_other (order : list (string * list string))
    (environ : gmap string string) (name : string) :
  (forall param, param ∈ order -> ToUpper (fst param) <> name) ->
  fold_left (setParamToEnv ToUpper accepts) order environ !! name = environ !! name.
Proof.
  revert environ. induction order as [|param order IH]; intros environ Hother;
    [reflexivity|].
  cbn [fold_left]. rewrite IH.
  - apply setParamToEnv_other, Hother. left.
  - intros p Hp. apply Hother. right. exact Hp.
Qed.

Lemma setParams_single (order : list (string * list string))
    (environ : gmap string string) (key value : string) (rest : list string) :
  NoDup order ->
  (key, value :: rest) ∈ order ->
  (forall param, param ∈ order -> ToUpper (fst param) = ToUpper key ->
     param = (key, value :: rest)) ->
  fold_left (setParamToEnv ToUpper accepts) order environ !! ToUpper key
  = if accepts (ToUpper key) value then Some value else environ !! ToUpper key.
Proof.
  intros Hnodup Hin Honly.
  destruct (list_elem_of_split _ _ Hin) as [before [after ->]].
  apply NoDup_app in Hnodup as [_ [Hsep Hafter]].
  apply NoDup_cons in Hafter as [Hnotin _].
  assert (Hmiss : forall l : list (string * list string),
                   (forall p, p ∈ l -> p ∈ before ++ (key, value :: rest) :: after) ->
                   (key, value :: rest) ∉ l ->
                   forall p, p ∈ l -> ToUpper (fst p) <> ToUpper key).
  { intros l Hsub Hnot p Hp Hsame. apply Hnot.
    rewrite <- (Honly p (Hsub p Hp) Hsame). exact Hp. }
  rewrite fold_left_app. cbn [fold_left].
  rewrite setParams_other.
  2:{ apply Hmiss; [|exact Hnotin].
      intros p Hp. apply elem_of_app. right. right. exact Hp. }
  unfold setParamToEnv at 1, os_Setenv. cbn [fst snd].
  destruct (accepts (ToUpper key) value).
  - apply lookup_insert_eq.
  - apply setParams_other. apply Hmiss.
    + intros p Hp. apply elem_of_app. left. exact Hp.
    + intros Hbefore. apply (Hsep _ Hbefore). left.
Qed.

End QueryParamsToEnvFacts.

(** The query-to-environment wrapper always runs the wrapped handler on
    the same request and world. Whatever order the loop takes: a variable
    that is the upper-cased name of no query parameter is left as it was;
    and when one parameter alone has a given upper-cased name, that
    variable is set to the parameter's first value if [os.Setenv] accepts
    it, and is left as it was if not. *)
Theorem query_params_to_env (ToUpper : string -> string)
    (accepts : string -> string -> bool) (order : list (string * list string))
    (handler : PageHandler) (r : Request) (environ : gmap string string)
    (w : World) :
  order ≡ₚ map_to_list (requestQuery r) ->
  let out := wrapQueryParamsToEnv ToUpper accepts order handler r environ w in
  snd out = handler r w
  /\ (forall name,
        (forall key values, requestQuery r !! key = Some values -> ToUpper key <> name) ->
        fst out !! name = environ !! name)
  /\ (forall key value rest,
        requestQuery r !! key = Some (value :: rest) ->
        (forall key' values', requestQuery r !! key' = Some values' ->
           ToUpper key' = ToUpper key -> key' = key) ->
        fst out !! ToUpper key
        = if accepts (ToUpper key) value then Some value else environ !! ToUpper key).
Proof.
  intros Hperm out. unfold out, wrapQueryParamsToEnv. cbn [fst snd].
  assert (Hmem : forall key values,
            (key, values) ∈ order <-> requestQuery r !! key = Some values).
  { intros key values. rewrite Hperm. apply elem_of_map_to_list. }
  split; [reflexivity|]. split.
  - intros name Hfree. apply setParams_other.
    intros [key values] Hin. apply (Hfree key values), Hmem, Hin.
  - intros key value rest Hkey Honly.
    apply (setParams_single ToUpper accepts order environ key value rest).
    + rewrite Hperm. apply NoDup_map_to_list.
    + apply Hmem, Hkey.
    + intros [key' values'] Hin Hsame. cbn [fst] in Hsame.
      apply Hmem in Hin. pose proof (Honly key' values' Hin Hsame) as ->.
      congruence.
Qed.

(** [?term=xterm&Lang=C] sets TERM (and leaves HOME alone). *)
Lemma query_params_to_env_witness :
  fst (wrapQueryParamsToEnv ToUpperASCII unixSetenvAccepts
         (map_to_list (requestQuery (getRequest "term=xterm&Lang=C")))
         (serveHandler (fun _ w => (w, []))) (getRequest "term=xterm&Lang=C")
         (<["HOME" := "/root"]> ∅) zeroWorld) !! "TERM"
  = Some "xterm".
Proof.
  refine (proj2 (proj2 (query_params_to_env ToUpperASCII unixSetenvAccepts
            (map_to_list (requestQuery (getRequest "term=xterm&Lang=C")))
            (serveHandler (fun _ w => (w, []))) (getRequest "term=xterm&Lang=C")
            (<["HOME" := "/root"]> ∅) zeroWorld (reflexivity _)))
            "term" "xterm" [] _ _).
  - vm_compute. reflexivity.
  - intros key' values' Hkey Hupper.
    assert (Hdom : key' = "term" \/ key' = "Lang").
    { destruct (decide (key' = "term")) as [|Hn1]; [auto|].
      destruct (decide (key' = "Lang")) as [|Hn2]; [auto|].
      exfalso. revert Hkey.
      replace (requestQuery (getRequest "term=xterm&Lang=C"))
        with (<["term" := ["xterm"]]> (<["Lang" := ["C"]]> (∅ : url.Values)))
        by (vm_compute; reflexivity).
      rewrite lookup_insert_ne by congruence.
      rewrite lookup_insert_ne by congruence.
      rewrite lookup_empty. discriminate. }
    destruct Hdom as [-> | ->]; [reflexivity | discriminate].
Defined.

(** When two parameters have the same upper-cased name, the variable ends
    with the value of the one the loop visits last: the two orders of the
    same two parameters give different environments. *)
Theorem query_params_to_env_collision (ToUpper : string -> string)
    (accepts : string -> string -> bool) (handler : PageHandler) (r : Request)
    (environ : gmap string string) (w : World)
    (key1 key2 value1 value2 : string) (rest1 rest2 : list string) :
  ToUpper key1 = ToUpper key2 ->
  accepts (ToUpper key1) value1 = true ->
  accepts (ToUpper key1) value2 = true ->
  let first := (key1, value1 :: rest1) in
  let second := (key2, value2 :: rest2) in
  fst (wrapQueryParamsToEnv ToUpper accepts [first; second] handler r environ w)
    !! ToUpper key1 = Some value2
  /\ fst (wrapQueryParamsToEnv ToUpper accepts [second; first] handler r environ w)
       !! ToUpper key1 = Some value1.
Proof.
  intros Hsame Hfirst Hsecond first second. subst first second.
  unfold wrapQueryParamsToEnv. cbn [fst fold_left].
  unfold setParamToEnv, os_Setenv. cbn [fst snd].
  rewrite <- !Hsame, Hfirst, Hsecond. split; apply lookup_insert_eq.
Qed.

Lemma query_params_to_env_collision_witness :
  fst (wrapQueryParamsToEnv ToUpperASCII unixSetenvAccepts
         [("path", ["a"]); ("PATH", ["b"])]
         (serveHandler (fun _ w => (w, []))) (getRequest "path=a&PATH=b")
         ∅ zeroWorld) !! "PATH" = Some "b"
  /\ fst (wrapQueryParamsToEnv ToUpperASCII unixSetenvAccepts
            [("PATH", ["b"]); ("path", ["a"])]
            (serveHandler (fun _ w => (w, []))) (getRequest "path=a&PATH=b")
            ∅ zeroWorld) !! "PATH" = Some "a".
Proof.
  exact (query_params_to_env_collision ToUpperASCII unixSetenvAccepts
           (serveHandler (fun _ w => (w, []))) (getRequest "path=a&PATH=b")
           ∅ zeroWorld "path" "PATH" "a" "b" [] [] eq_refl eq_refl eq_refl).
Defined.

(** ** Title variables (handlers.go) *)

Section TitleVariablesFacts.

Context {V : Type}.

Lemma mergeUnit_lookup (vars : gmap string V) (titleVars : gmap string (titleValue V))
    (key : string) :
  mergeUnit V vars titleVars !! key
  = match vars !! key with
    | Some val => Some (titleVar V val)
    | None => titleVars !! key
    end.
Proof.
  unfold mergeUnit.
  apply (map_fold_weak_ind
           (fun merged (m : gmap string V) =>
              merged !! key = match m !! key with
                              | Some val => Some (titleVar V val)
                              | None => titleVars !! key
                              end)).
  - rewrite lookup_empty. reflexivity.
  - intros k val m merged _ IH.
    destruct (decide (k = key)) as [-> | Hne].
    + rewrite !lookup_insert_eq. reflexivity.
    + rewrite !lookup_insert_ne by exact Hne. exact IH.
Qed.

(** The first loop fails exactly when a name of [order] is no unit. *)
Lemma mergeUnits_None (order : list string) (varUnits : gmap string (gmap string V))
    (titleVars : gmap string (titleValue V)) :
  mergeUnits V order varUnits titleVars = None
  <-> exists name, name ∈ order /\ varUnits !! name = None.
Proof.
  revert titleVars. induction order as [|name order IH]; intros titleVars; cbn.
  - split; [discriminate|]. intros [name [Hin _]]. inversion Hin.
  - destruct (varUnits !! name) as [vars|] eqn:Hname.
    + rewrite IH. split.
      * intros [n [Hin Hn]]. exists n. split; [right; exact Hin | exact Hn].
      * intros [n [Hin Hn]]. exists n. split; [|exact Hn].
        apply elem_of_cons in Hin as [-> | Hin]; [congruence | exact Hin].
    + split; [|reflexivity]. intros _. exists name. split; [left | exact Hname].
Qed.

(** A key that no unit of [order] has keeps its entry. *)
Lemma mergeUnits_miss (order : list string) (varUnits : gmap string (gmap string V))
    (titleVars merged : gmap string (titleValue V)) (key : string) :
  mergeUnits V order varUnits titleVars = Some merged ->
  (forall name vars, name ∈ order -> varUnits !! name = Some vars -> vars !! key = None) ->
  merged !! key = titleVars !! key.
Proof.
  revert titleVars. induction order as [|name order IH]; intros titleVars; cbn.
  - intros [= <-] _. reflexivity.
  - destruct (varUnits !! name) as [vars|] eqn:Hname; [|discriminate].
    intros Hmerged Hmiss. rewrite (IH _ Hmerged).
    + rewrite mergeUnit_lookup, (Hmiss name vars); [reflexivity | left | exact Hname].
    + intros n vs Hin. apply Hmiss. right. exact Hin.
Qed.

(** A key gets its variable from the last unit of [order] that has it. *)
Lemma mergeUnits_last (before after : list string) (name : string)
    (varUnits : gmap string (gmap string V)) (vars : gmap string V)
    (titleVars merged : gmap string (titleValue V)) (key : string) (val : V) :
  mergeUnits V (before ++ name :: after) varUnits titleVars = Some merged ->
  varUnits !! name = Some vars ->
  vars !! key = Some val ->
  (forall later vars', later ∈ after -> varUnits !! later = Some vars' ->
     vars' !! key = None) ->
  merged !! key = Some (titleVar V val).
Proof.
  revert titleVars. induction before as [|b before IH]; intros titleVars; cbn.
  - intros Hmerged Hname Hval Hlater. rewrite Hname in Hmerged.
    rewrite (mergeUnits_miss _ _ _ _ _ Hmerged Hlater).
    rewrite mergeUnit_lookup, Hval. reflexivity.
  - destruct (varUnits !! b); [|discriminate]. apply IH.
Qed.

Lemma safeNet_snoc (order : list string) (name : string)
    (varUnits : gmap string (gmap string V)) (titleVars : gmap string (titleValue V)) :
  safeNet V (order ++ [name]) varUnits titleVars
  = <[name := titleUnit V (default ∅ (varUnits !! name))]>
      (safeNet V order varUnits titleVars).
Proof. unfold safeNet. rewrite fold_left_app. reflexivity. Qed.

Lemma safeNet_lookup (order : list string) (varUnits : gmap string (gmap string V))
    (titleVars : gmap string (titleValue V)) (key : string) :
  safeNet V order varUnits titleVars !! key
  = if decide (key ∈ order)
    then Some (titleUnit V (default ∅ (varUnits !! key)))
    else titleVars !! key.
Proof.
  induction order as [|name order IH] using rev_ind.
  - cbn. destruct (decide (key ∈ [])) as [Hin|]; [inversion Hin | reflexivity].
  - rewrite safeNet_snoc. destruct (decide (name = key)) as [-> | Hne].
    + rewrite lookup_insert_eq.
      destruct (decide (key ∈ order ++ [key])) as [|Hnot]; [reflexivity|].
      exfalso. apply Hnot, elem_of_app. right. left.
    + rewrite lookup_insert_ne by exact Hne. rewrite IH.
      destruct (decide (key ∈ order)) as [Hin | Hnot];
        destruct (decide (key ∈ order ++ [name])) as [Hin' | Hnot'];
        try reflexivity.
      * exfalso. apply Hnot', elem_of_app. left. exact Hin.
      * exfalso. apply elem_of_app in Hin' as [Hin' | Hin']; [exact (Hnot Hin')|].
        apply list_elem_of_singleton in Hin'. congruence.
Qed.

End TitleVariablesFacts.

(** [titleVariables] panics exactly when a name of [order] is no key of
    [varUnits]. Otherwise, in the merged map, every name of [order] stands
    for its whole unit (also when some unit has a variable of that name);
    any other key has the variable of the last unit in [order] that has
    it; and a key that no unit has is absent. *)
Theorem titleVariables_precedence {V : Type} (order : list string)
    (varUnits : gmap string (gmap string V)) :
  (titleVariables V order varUnits = None
   <-> exists name, name ∈ order /\ varUnits !! name = None)
  /\ forall merged,
       titleVariables V order varUnits = Some merged ->
       (forall name, name ∈ order ->
          exists vars, varUnits !! name = Some vars
                       /\ merged !! name = Some (titleUnit V vars))
       /\ (forall key before name after vars val,
             key ∉ order ->
             order = before ++ name :: after ->
             varUnits !! name = Some vars ->
             vars !! key = Some val ->
             (forall later vars', later ∈ after -> varUnits !! later = Some vars' ->
                vars' !! key = None) ->
             merged !! key = Some (titleVar V val))
       /\ (forall key,
             key ∉ order ->
             (forall name vars, name ∈ order -> varUnits !! name = Some vars ->
                vars !! key = None) ->
             merged !! key = None).
Proof.
  unfold titleVariables. split.
  - rewrite <- mergeUnits_None with (titleVars := ∅).
    destruct (mergeUnits V order varUnits ∅); cbn; split; congruence.
  - intros merged Hmerged.
    destruct (mergeUnits V order varUnits ∅) as [first|] eqn:Hfirst; [|discriminate].
    cbn in Hmerged. injection Hmerged as <-. split; [|split].
    + intros name Hin.
      destruct (varUnits !! name) as [vars|] eqn:Hname.
      * exists vars. split; [reflexivity|].
        rewrite safeNet_lookup, Hname. rewrite decide_True by exact Hin. reflexivity.
      * exfalso.
        assert (Hnone : mergeUnits V order varUnits ∅ = None)
          by (apply mergeUnits_None; eauto).
        congruence.
    + intros key before name after vars val Hnot -> Hname Hval Hlater.
      rewrite safeNet_lookup. rewrite decide_False by exact Hnot.
      exact (mergeUnits_last _ _ _ _ _ _ _ _ _ Hfirst Hname Hval Hlater).
    + intros key Hnot Hmiss.
      rewrite safeNet_lookup. rewrite decide_False by exact Hnot.
      rewrite (mergeUnits_miss _ _ _ _ _ Hfirst Hmiss). apply lookup_empty.
Qed.

(** Two units that both have "user": the later one wins. *)
Lemma titleVariables_precedence_witness :
  exists merged,
    titleVariables nat ["server"; "slave"]
      (<["server" := <["user" := 1%nat]> ∅]> (<["slave" := <["user" := 2%nat]> ∅]> ∅))
    = Some merged
    /\ merged !! "user" = Some (titleVar nat 2%nat).
Proof.
  pose proof (titleVariables_precedence (V := nat) ["server"; "slave"]
                (<["server" := <["user" := 1%nat]> ∅]>
                   (<["slave" := <["user" := 2%nat]> ∅]> ∅))) as [Hpanic Hmerge].
  assert (Hserver : (<["server" := <["user" := 1%nat]> ∅]>
                       (<["slave" := <["user" := 2%nat]> ∅]> ∅)
                     : gmap string (gmap string nat)) !! "server"
                    = Some (<["user" := 1%nat]> ∅))
    by apply lookup_insert_eq.
  assert (Hslave : (<["server" := <["user" := 1%nat]> ∅]>
                      (<["slave" := <["user" := 2%nat]> ∅]> ∅)
                    : gmap string (gmap string nat)) !! "slave"
                   = Some (<["user" := 2%nat]> ∅)).
  { rewrite lookup_insert_ne by discriminate. apply lookup_insert_eq. }
  destruct (titleVariables nat ["server"; "slave"] _) as [merged|].
  - exists merged. split; [reflexivity|].
    refine (proj1 (proj2 (Hmerge merged eq_refl))
              "user" ["server"] "slave" [] (<["user" := 2%nat]> ∅) 2%nat
              _ eq_refl Hslave _ _).
    + intros Hin. apply elem_of_cons in Hin as [Hin | Hin]; [discriminate|].
      apply list_elem_of_singleton in Hin. discriminate.
    + apply lookup_insert_eq.
    + intros later vars' Hin. inversion Hin.
  - exfalso. destruct (proj1 Hpanic eq_refl) as [name [Hin Hname]].
    apply elem_of_cons in Hin as [-> | Hin]; [congruence|].
    apply list_elem_of_singleton in Hin as ->. congruence.
Defined.

(** The two calls of [titleVariables] in the package never panic. For a
    session, "server", "master" and "slave" stand for the three units,
    whatever variables the units have; any other key shows the backend's
    variable if it has one, else the connection's address for
    "remote_addr", else the configured variable. The index page has the
    same without the backend. *)
Theorem title_call_sites {V : Type} (TitleVariables slaveVariables : gmap string V)
    (remote_addr : V) :
  (exists merged,
      sessionTitleVariables V TitleVariables remote_addr slaveVariables = Some merged
      /\ merged !! "server" = Some (titleUnit V TitleVariables)
      /\ merged !! "master" = Some (titleUnit V (<["remote_addr" := remote_addr]> ∅))
      /\ merged !! "slave" = Some (titleUnit V slaveVariables)
      /\ forall key, key <> "server" -> key <> "master" -> key <> "slave" ->
           merged !! key
           = match slaveVariables !! key with
             | Some val => Some (titleVar V val)
             | None =>
                 if decide (key = "remote_addr") then Some (titleVar V remote_addr)
                 else titleVar V <$> TitleVariables !! key
             end)
  /\ (exists merged,
        indexTitleVariables V TitleVariables remote_addr = Some merged
        /\ merged !! "server" = Some (titleUnit V TitleVariables)
        /\ merged !! "master" = Some (titleUnit V (<["remote_addr" := remote_addr]> ∅))
        /\ forall key, key <> "server" -> key <> "master" ->
             merged !! key
             = if decide (key = "remote_addr") then Some (titleVar V remote_addr)
               else titleVar V <$> TitleVariables !! key).
Proof.
  assert (Haddr : forall key : string,
            (<["remote_addr" := remote_addr]> (∅ : gmap string V)) !! key
            = if decide (key = "remote_addr") then Some remote_addr else None).
  { intros key. destruct (decide (key = "remote_addr")) as [-> | Hne].
    - apply lookup_insert_eq.
    - rewrite lookup_insert_ne by congruence. apply lookup_empty. }
  split.
  - unfold sessionTitleVariables, titleVariables.
    set (units := <["server" := TitleVariables]>
                    (<["master" := <["remote_addr" := remote_addr]> ∅]>
                       (<["slave" := slaveVariables]> ∅))).
    assert (Hserver : units !! "server" = Some TitleVariables)
      by apply lookup_insert_eq.
    assert (Hmaster : units !! "master" = Some (<["remote_addr" := remote_addr]> ∅)).
    { unfold units. rewrite lookup_insert_ne by discriminate. apply lookup_insert_eq. }
    assert (Hslave : units !! "slave" = Some slaveVariables).
    { unfold units. rewrite !lookup_insert_ne by discriminate. apply lookup_insert_eq. }
    cbn [mergeUnits]. rewrite Hserver, Hmaster, Hslave.
    eexists. split; [reflexivity|].
    assert (Hnames : forall key : string,
              key ∈ ["server"; "master"; "slave"]
              <-> key = "server" \/ key = "master" \/ key = "slave").
    { intros key. rewrite !elem_of_cons, elem_of_nil. tauto. }
    repeat split.
    + rewrite safeNet_lookup, decide_True by (apply Hnames; auto).
      rewrite Hserver. reflexivity.
    + rewrite safeNet_lookup, decide_True by (apply Hnames; auto).
      rewrite Hmaster. reflexivity.
    + rewrite safeNet_lookup, decide_True by (apply Hnames; auto).
      rewrite Hslave. reflexivity.
    + intros key H1 H2 H3.
      rewrite safeNet_lookup, decide_False by (rewrite Hnames; tauto).
      rewrite !mergeUnit_lookup, Haddr, lookup_empty.
      destruct (slaveVariables !! key); [reflexivity|].
      destruct (decide (key = "remote_addr")); [reflexivity|].
      destruct (TitleVariables !! key); reflexivity.
  - unfold indexTitleVariables, titleVariables.
    set (units := <["server" := TitleVariables]>
                    (<["master" := <["remote_addr" := remote_addr]> ∅]> ∅)).
    assert (Hserver : units !! "server" = Some TitleVariables)
      by apply lookup_insert_eq.
    assert (Hmaster : units !! "master" = Some (<["remote_addr" := remote_addr]> ∅)).
    { unfold units. rewrite lookup_insert_ne by discriminate. apply lookup_insert_eq. }
    cbn [mergeUnits]. rewrite Hserver, Hmaster.
    eexists. split; [reflexivity|].
    assert (Hnames : forall key : string,
              key ∈ ["server"; "master"] <-> key = "server" \/ key = "master").
    { intros key. rewrite !elem_of_cons, elem_of_nil. tauto. }
    repeat split.
    + rewrite safeNet_lookup, decide_True by (apply Hnames; auto).
      rewrite Hserver. reflexivity.
    + rewrite safeNet_lookup, decide_True by (apply Hnames; auto).
      rewrite Hmaster. reflexivity.
    + intros key H1 H2.
      rewrite safeNet_lookup, decide_False by (rewrite Hnames; tauto).
      rewrite !mergeUnit_lookup, Haddr, lookup_empty.
      destruct (decide (key = "remote_addr")); [reflexivity|].
      destruct (TitleVariables !! key); reflexivity.
Qed.

(** ** The health flag (part_001) *)

Lemma finish_unhealthy (guard : sessionGuard) (d : bool) (s : Server) :
  (isUnhealthy s = true -> isUnhealthy (snd (finish guard d s)) = true)
  /\ ((isUnhealthy s = true -> decommissioned s = true) ->
      isUnhealthy (snd (finish guard d s)) = true ->
      decommissioned (snd (finish guard d s)) = true).
Proof.
  destruct s as [dec act unh]. unfold finish, isUnhealthy. cbn.
  destruct (String.eqb (env guard) envValueDev), d, dec; cbn; auto.
Qed.

Lemma begin_unhealthy (e : string) (s : Server) :
  isUnhealthy (snd (beginManagedSession e s)) = isUnhealthy s.
Proof.
  unfold isUnhealthy. rewrite (proj2 (begin_keeps_flags e s)). reflexivity.
Qed.

(** The unhealthy flag is one-way: no operation of the package takes it
    back. And it is raised only with the decommissioned flag, unless
    [markUnhealthy] is called on its own: on a server that was healthy, if
    no such call was made and the server is unhealthy now, then it is
    decommissioned. *)
Theorem health_flag_one_way {ext : External} (options : Options)
    (ops : list Op) (w : World) :
  (isUnhealthy (server w) = true ->
     isUnhealthy (server (execs options ops w)) = true)
  /\ (isUnhealthy (server w) = false ->
      ~ In OpMarkUnhealthy ops ->
      isUnhealthy (server (execs options ops w)) = true ->
      decommissioned (server (execs options ops w)) = true).
Proof.
  split.
  - revert w. induction ops as [|op ops IH]; intros w Hun; [exact Hun|].
    cbn [execs fold_left]. apply IH. destruct op as [e | guard d | | sc r]; cbn.
    + rewrite begin_unhealthy. exact Hun.
    + apply finish_unhealthy, Hun.
    + reflexivity.
    + apply (handleWS_preserves options (fun s => isUnhealthy s = true)); auto.
      * intros e s Hs. rewrite begin_unhealthy. exact Hs.
      * intros guard d s Hs. apply finish_unhealthy, Hs.
  - intros Hhealthy.
    assert (Hstart : isUnhealthy (server w) = true -> decommissioned (server w) = true)
      by (rewrite Hhealthy; discriminate).
    clear Hhealthy. revert w Hstart.
    induction ops as [|op ops IH]; intros w Hstart Hnomark; [exact Hstart|].
    cbn [execs fold_left]. apply IH.
    + destruct op as [e | guard d | | sc r]; cbn.
      * rewrite begin_unhealthy, (proj1 (begin_keeps_flags e (server w))).
        exact Hstart.
      * apply finish_unhealthy, Hstart.
      * exfalso. apply Hnomark. left. reflexivity.
      * apply (handleWS_preserves options
                 (fun s => isUnhealthy s = true -> decommissioned s = true)); auto.
        -- intros e s Hs.
           rewrite begin_unhealthy, (proj1 (begin_keeps_flags e s)). exact Hs.
        -- intros guard d s Hs. apply finish_unhealthy, Hs.
    + intros Hin. apply Hnomark. right. exact Hin.
Qed.

(** A prod session that ends cleanly raises both flags. *)
Lemma health_flag_one_way_witness :
  decommissioned
    (server (execs (ext := asciiExternal) plainOptions
               [OpHandleWS (goodScript (mkInit "" "") None) (getRequest "")]
               zeroWorld))
  = true.
Proof.
  refine (proj2 (health_flag_one_way (ext := asciiExternal) plainOptions
            [OpHandleWS (goodScript (mkInit "" "") None) (getRequest "")]
            zeroWorld) eq_refl _ eq_refl).
  intros [Hin | []]. discriminate.
Defined.

(** ** The guard, once more *)

(** The slot does not leak, and only a finished ticket decommissions:
    after any calls from a quiet server, if no prod ticket is live and the
    server is not decommissioned then every admission succeeds; and if the
    server is decommissioned now but was not at the start, some ticket was
    finished with [decommission = true]. *)
Theorem guard_availability (g0 : Guarded) (cs : list Call) :
  live g0 = [] ->
  activeSession (guarded g0) = false ->
  let g := calls cs g0 in
  (liveProd g = 0%nat -> decommissioned (guarded g) = false ->
     forall e, exists s, beginManagedSession e (guarded g) = (inl (mkGuard e), s))
  /\ (decommissioned (guarded g0) = false -> decommissioned (guarded g) = true ->
      exists ticket, In (CallFinish ticket true) cs).
Proof.
  intros Hlive Hfree g. split.
  - assert (Hinv : guardInvariant g).
    { apply calls_guardInvariant. unfold guardInvariant, liveProd.
      rewrite Hlive, Hfree. cbn. split; [reflexivity | auto]. }
    destruct Hinv as [Hcount _]. intros Hnone Hdec e.
    rewrite Hnone in Hcount. unfold beginManagedSession. rewrite Hdec.
    destruct (String.eqb e envValueDev); [eauto|].
    destruct (activeSession (guarded g)); [discriminate | eauto].
  - subst g. clear Hlive Hfree. revert g0.
    induction cs as [|c cs IH]; intros g0 Hstart Hend; [cbn in Hend; congruence|].
    cbn [calls fold_left] in Hend.
    destruct (decommissioned (guarded (call c g0))) eqn:Hstep.
    + destruct c as [e | ticket d]; cbn in Hstep.
      * exfalso. revert Hstep.
        pose proof (proj1 (begin_keeps_flags e (guarded g0))) as Hkeep.
        destruct (beginManagedSession e (guarded g0)) as [[guard | err] s];
          cbn in *; congruence.
      * destruct (live g0 !! ticket) as [guard|]; cbn in Hstep; [|congruence].
        destruct d; [exists ticket; left; reflexivity|].
        exfalso. revert Hstep. destruct (guarded g0) as [dec act unh].
        cbn in Hstart. subst dec. unfold finish.
        destruct (String.eqb (env guard) envValueDev); cbn; discriminate.
    + destruct (IH (call c g0) Hstep Hend) as [ticket Hin].
      exists ticket. right. exact Hin.
Qed.

(** After a prod session was opened and closed without decommissioning,
    the next prod admission succeeds. *)
Lemma guard_availability_witness :
  exists s, beginManagedSession "prod" (mkServer false false 0)
            = (inl (mkGuard "prod"), s).
Proof.
  exact (proj1 (guard_availability (mkGuarded zeroServer [])
                  [CallBegin "prod"; CallFinish 0 false] eq_refl eq_refl)
           eq_refl eq_refl "prod").
Defined.

(** ** The handshake, once more *)



(** Without [PermitArguments] the [Arguments] of the init message have no
    effect at all: two init messages with the same token give the same
    error and the same calls, the parameters of the factory included. *)
Theorem arguments_need_permission {ext : External} (options : Options)
    (sc : Script) (headers : option url.Values) (params : url.Values)
    (token arguments arguments' : string) :
  PermitArguments options = false ->
  processWSConn options (withInit sc (mkInit arguments token)) headers params
  = processWSConn options (withInit sc (mkInit arguments' token)) headers params.
Proof.
  intros Hpermit. unfold processWSConn, withInit. cbn. rewrite Hpermit.
  reflexivity.
Qed.

Lemma arguments_need_permission_witness :
  processWSConn (ext := asciiExternal) (mkOptions false 0 false "" false)
    (withInit (goodScript (mkInit "" "") None) (mkInit "?cmd=sh" "")) None ∅
  = processWSConn (ext := asciiExternal) (mkOptions false 0 false "" false)
      (withInit (goodScript (mkInit "" "") None) (mkInit "" "")) None ∅.
Proof.
  exact (arguments_need_permission (ext := asciiExternal)
           (mkOptions false 0 false "" false) (goodScript (mkInit "" "") None)
           None ∅ "" "?cmd=sh" "" eq_refl).
Defined.

(** ** The handler, once more *)

Section HandlerEffect.

Context {ext : External}.
Variable options : Options.

Lemma begin_refused (e : string) (s0 s : Server) (err : sessionError) :
  beginManagedSession e s0 = (inr err, s) -> s = s0.
Proof.
  unfold beginManagedSession.
  destruct (decommissioned s0); [intros [= _ <-]; reflexivity|].
  destruct (String.eqb e envValueDev); [discriminate|].
  destruct (activeSession s0); [intros [= _ <-]; reflexivity | discriminate].
Qed.

Lemma begin_admitted_prod (e : string) (s0 s : Server) (guard : sessionGuard) :
  beginManagedSession e s0 = (inl guard, s) -> e <> envValueDev ->
  s0 = mkServer false false (unhealthy s0) /\ s = mkServer false true (unhealthy s0).
Proof.
  intros Hbegin Hprod. apply envValueDev_eqb in Hprod. revert Hbegin.
  destruct s0 as [dec act unh]. unfold beginManagedSession. cbn. rewrite Hprod.
  destruct dec; [discriminate|]. destruct act; [discriminate|].
  intros [= _ <-]. split; reflexivity.
Qed.

(** What it takes for the session body to ask for a decommission. *)
Lemma session_decides (e : string) (sc : Script) (r : Request) (w : World) :
  snd (fst (fst (session options e sc r w))) = true ->
  e <> envValueDev /\ Method r = "GET" /\ upgradeResult sc = None
  /\ (MaxConnection options = 0 \/ connections w + 1 <= MaxConnection options)
  /\ shouldDecommission
       (fst (processWSConn options sc (passedHeaders options r) (requestQuery r)))
     = true.
Proof.
  unfold session.
  destruct (String.eqb (Method r) "GET") eqn:Hget; cbn [negb]; [|discriminate].
  apply String.eqb_eq in Hget. cbn [counter_add].
  destruct (upgradeResult sc); [discriminate|].
  destruct (Z.eqb (MaxConnection options) 0) eqn:Hzero; cbn [negb andb].
  - apply Z.eqb_eq in Hzero. unfold passedHeaders.
    destruct (processWSConn options sc _ _) as [err events]. cbn.
    destruct (String.eqb e envValueDev) eqn:He; cbn; [discriminate|].
    apply String.eqb_neq in He. auto 6.
  - destruct (Z.gtb (connections w + 1) (MaxConnection options)) eqn:Hgt;
      [discriminate|].
    assert (Hle : connections w + 1 <= MaxConnection options).
    { rewrite Z.gtb_ltb in Hgt. apply Z.ltb_ge in Hgt. exact Hgt. }
    unfold passedHeaders.
    destruct (processWSConn options sc _ _) as [err events]. cbn.
    destruct (String.eqb e envValueDev) eqn:He; cbn; [discriminate|].
    apply String.eqb_neq in He. auto 6.
Qed.



End HandlerEffect.

(** A run of the handler changes the server record in one way only. It
    leaves the record as it found it (the slot it took is given back on
    every path), or it decommissions the server, and that only for a
    session that is not dev, was admitted, was a GET within the connection
    limit, was upgraded, and whose [processWSConn] error is classified as
    a clean termination. *)
Theorem handleWS_server_effect {ext : External} (options : Options)
    (sc : Script) (r : Request) (w : World) :
  let e := fst (resolveEnvFromRequest r) in
  let after := server (fst (handleWS options sc r w)) in
  after = server w
  \/ (after = mkServer true false 1
      /\ decommissioned (server w) = false
      /\ activeSession (server w) = false
      /\ e <> envValueDev
      /\ Method r = "GET"
      /\ upgradeResult sc = None
      /\ (MaxConnection options = 0 \/ connections w + 1 <= MaxConnection options)
      /\ shouldDecommission
           (fst (processWSConn options sc (passedHeaders options r) (requestQuery r)))
         = true).
Proof.
  intros e after. unfold after, handleWS. subst e.
  destruct (resolveEnvFromRequest r) as [e cookies]. cbn [fst].
  destruct (if Once options then CompareAndSwapInt64 (once w) 0 1
            else (true, once w)) as [success word].
  destruct success; cbn [negb]; [|left; reflexivity].
  cbn [withOnce server].
  destruct (beginManagedSession e (server w)) as [[guard | err] s] eqn:Hbegin.
  2:{ left. cbn. apply (begin_refused _ _ _ _ Hbegin). }
  pose proof (session_server options e sc r
                (withServer s (mkWorld (server w) word (connections w) (cancelled w))))
    as Hsrv.
  pose proof (session_decides options e sc r
                (withServer s (mkWorld (server w) word (connections w) (cancelled w))))
    as Hdecide.
  destruct (session options e sc r _) as [[[incremented decide] w1] events].
  cbn [fst snd] in *. rewrite release_server, Hsrv. cbn [server withServer].
  destruct (begin_admitted _ _ _ _ Hbegin) as [Henv [Hdec Hsame]].
  destruct decide.
  - right. destruct (Hdecide eq_refl) as [Hprod [Hget [Hup [Hfits Hclean]]]].
    destruct (begin_admitted_prod _ _ _ _ Hbegin Hprod) as [Hw ->].
    rewrite finish_prod by congruence. cbn.
    rewrite Hw. cbn. auto 10.
  - left. destruct (String.eqb e envValueDev) eqn:He.
    + apply String.eqb_eq in He. rewrite finish_dev by congruence.
      cbn. apply Hsame, He.
    + apply String.eqb_neq in He.
      destruct (begin_admitted_prod _ _ _ _ Hbegin He) as [Hw ->].
      rewrite finish_prod by congruence. cbn. symmetry. exact Hw.
Qed.


Section FactoryInputs.

Context {ext : External}.
Variable options : Options.

Lemma resolveEnv_events (r : Request) (ev : Event) :
  In ev (snd (resolveEnvFromRequest r)) -> exists cookie, ev = SetCookie cookie.
Proof.
  unfold resolveEnvFromRequest.
  destruct (negb (String.eqb (strings_TrimSpace
              (url.Get (requestQuery r) envQueryParam)) "")).
  - destruct (String.eqb _ ""); cbn; intros [<- | []]; eauto.
  - destruct (requestCookie r envCookieName);
      destruct (String.eqb _ ""); cbn; intros [].
Qed.

Lemma processWSConn_factory (sc : Script) (headers passed : option url.Values)
    (http params : url.Values) :
  In (FactoryNew params passed) (snd (processWSConn options sc headers http)) ->
  passed = headers /\ exists query, params = mergeParams http (url.Query query).
Proof.
  unfold processWSConn.
  destruct (readResult sc) as [rerr | [typ payload]];
    [cbn; intuition discriminate|].
  destruct (negb (Z.eqb typ TextMessage)); [cbn; intuition discriminate|].
  destruct (unmarshalResult sc) as [uerr | init]; [cbn; intuition discriminate|].
  destruct (negb (String.eqb (AuthToken init) (Credential options)));
    [cbn; intuition discriminate|].
  destruct (url_Parse _) as [perr | query]; [cbn; intuition discriminate|].
  destruct (factoryResult sc), (titleResult sc), (webttyResult sc); cbn;
    intros Hin; repeat (destruct Hin as [Hin | Hin]);
    try discriminate; try contradiction;
    injection Hin as <- <-; eauto.
Qed.

End FactoryInputs.

(** What reaches the backend factory. In any run of the handler, the
    factory is handed the request's headers only if [PassHeaders] is set
    (and nil otherwise), and every query parameter of the HTTP request
    reaches it with its HTTP values, whatever the init message says. *)
Theorem factory_inputs {ext : External} (options : Options) (sc : Script)
    (r : Request) (w : World) (params : url.Values) (headers : option url.Values) :
  In (FactoryNew params headers) (snd (handleWS options sc r w)) ->
  headers = (if PassHeaders options then Some (Header r) else None)
  /\ forall key values,
       requestQuery r !! key = Some values -> params !! key = Some values.
Proof.
  intros Hin.
  assert (Hcore : headers = passedHeaders options r
                  /\ exists query, params = mergeParams (requestQuery r) (url.Query query)).
  { revert Hin. unfold handleWS.
    pose proof (resolveEnv_events r (FactoryNew params headers)) as Hcookies.
    destruct (resolveEnvFromRequest r) as [e cookies]. cbn [snd] in Hcookies.
    assert (Hnot : ~ In (FactoryNew params headers) cookies).
    { intros Hc. destruct (Hcookies Hc) as [cookie Hcookie]. discriminate. }
    destruct (if Once options then CompareAndSwapInt64 (once w) 0 1
              else (true, once w)) as [success word].
    destruct success; cbn [negb snd].
    2:{ intros Hin. apply in_app_or in Hin as [Hin | [Hin | []]];
          [contradiction | discriminate]. }
    destruct (beginManagedSession e _) as [[guard | err] s].
    2:{ cbn [snd]. intros Hin. apply in_app_or in Hin as [Hin | [Hin | []]];
          [contradiction | discriminate]. }
    unfold session.
    destruct (negb (String.eqb (Method r) "GET")).
    { cbn. intros Hin. apply in_app_or in Hin as [Hin | [Hin | []]];
        [contradiction | discriminate]. }
    cbn [counter_add]. destruct (upgradeResult sc).
    { cbn. intros Hin. apply in_app_or in Hin as [Hin | [Hin | []]];
        [contradiction | discriminate]. }
    destruct (negb (Z.eqb (MaxConnection options) 0) && _)%bool.
    { cbn. intros Hin.
      apply in_app_or in Hin as [Hin | [Hin | [Hin | [Hin | []]]]];
        [contradiction | discriminate..]. }
    pose proof (processWSConn_factory options sc
                  (if PassHeaders options then Some (Header r) else None)
                  headers (requestQuery r) params) as Hfactory.
    destruct (processWSConn options sc _ _) as [err events].
    cbn [snd] in *. intros Hin.
    rewrite !in_app_iff in Hin. cbn [In] in Hin.
    intuition discriminate. }
  destruct Hcore as [-> [query ->]]. split; [reflexivity|].
  intros key values Hkey. rewrite mergeParams_lookup, Hkey. reflexivity.
Qed.

(** The link says [user=b], the init message asks for [?user=a]: the
    factory is called with [user -> ["b"]] and no headers. *)
Lemma factory_inputs_witness :
  (<["user" := ["b"]]> ∅ : url.Values) !! "user" = Some ["b"].
Proof.
  refine (proj2 (factory_inputs (ext := asciiExternal) plainOptions
            (goodScript (mkInit "?user=a" "") None) (getRequest "user=b")
            zeroWorld (<["user" := ["b"]]> ∅) None _) "user" ["b"] _).
  - vm_compute. auto.
  - vm_compute. reflexivity.
Defined.
